(** * BargainFHE: a shallow embedding of the bargaining-session contract

    The contract keeps a table of two-party price sessions.  A buyer creates
    a session, a seller joins it, each of them reveals a price under a
    decryption proof, and the second reveal decides whether the deal matches.

    The embedding follows the Solidity text statement by statement in a
    small state-and-revert monad.  What the contract calls but does not
    define ([FHE.fromExternal], [FHE.isInitialized], [FHE.toBytes32],
    [FHE.checkSignatures], and the hash that derives session ids) are the
    fields of the class [FHEHost]; [FHE.allowThis] only records the handle.

    Addresses, 32-byte words and 256-bit integers are numbers in [N].  The
    contract compares and copies them and never does arithmetic on them, so
    no wrap-around is written out.

    Layout: the definitions come first (values, state, monad, the contract,
    calls and runs, the invariant, a concrete host for examples), then the
    proofs: closed forms of the five functions, the invariant of reachable
    states, the properties C1 to C10, and further properties X1 to X14 of
    the views, the access rules, the event log and whole protocol runs. *)

From Stdlib Require Import NArith List Strings.Byte String.
From stdpp Require Import base option list gmap.

Open Scope N_scope.

(** ** Solidity value types *)

Abbreviation address := N (only parsing).
Abbreviation bytes32 := N (only parsing).
Abbreviation uint256 := N (only parsing).
Abbreviation euint32 := N (only parsing).
Abbreviation externalEuint32 := N (only parsing).
Abbreviation bytes := (list byte) (only parsing).

(** [struct BargainSession] *)
Record BargainSession := mkSession {
  buyer : address;
  seller : address;
  encryptedBuyerPrice : euint32;
  encryptedSellerPrice : euint32;
  publicBuyerPrice : uint256;
  publicSellerPrice : uint256;
  buyerRevealed : bool;
  sellerRevealed : bool;
  dealMatched : bool;
  timestamp : uint256
}.

(** The value every key of a Solidity mapping holds before it is written. *)
Definition zeroSession : BargainSession :=
  mkSession 0 0 0 0 0 0 false false false 0.

(** Field assignments [sessions[id].f = v]. *)
Definition set_seller (v : address) (x : BargainSession) : BargainSession :=
  mkSession (buyer x) v (encryptedBuyerPrice x) (encryptedSellerPrice x)
    (publicBuyerPrice x) (publicSellerPrice x)
    (buyerRevealed x) (sellerRevealed x) (dealMatched x) (timestamp x).

Definition set_encryptedSellerPrice (v : euint32) (x : BargainSession) : BargainSession :=
  mkSession (buyer x) (seller x) (encryptedBuyerPrice x) v
    (publicBuyerPrice x) (publicSellerPrice x)
    (buyerRevealed x) (sellerRevealed x) (dealMatched x) (timestamp x).

Definition set_publicBuyerPrice (v : uint256) (x : BargainSession) : BargainSession :=
  mkSession (buyer x) (seller x) (encryptedBuyerPrice x) (encryptedSellerPrice x)
    v (publicSellerPrice x)
    (buyerRevealed x) (sellerRevealed x) (dealMatched x) (timestamp x).

Definition set_publicSellerPrice (v : uint256) (x : BargainSession) : BargainSession :=
  mkSession (buyer x) (seller x) (encryptedBuyerPrice x) (encryptedSellerPrice x)
    (publicBuyerPrice x) v
    (buyerRevealed x) (sellerRevealed x) (dealMatched x) (timestamp x).

Definition set_buyerRevealed (v : bool) (x : BargainSession) : BargainSession :=
  mkSession (buyer x) (seller x) (encryptedBuyerPrice x) (encryptedSellerPrice x)
    (publicBuyerPrice x) (publicSellerPrice x)
    v (sellerRevealed x) (dealMatched x) (timestamp x).

Definition set_sellerRevealed (v : bool) (x : BargainSession) : BargainSession :=
  mkSession (buyer x) (seller x) (encryptedBuyerPrice x) (encryptedSellerPrice x)
    (publicBuyerPrice x) (publicSellerPrice x)
    (buyerRevealed x) v (dealMatched x) (timestamp x).

Definition set_dealMatched (v : bool) (x : BargainSession) : BargainSession :=
  mkSession (buyer x) (seller x) (encryptedBuyerPrice x) (encryptedSellerPrice x)
    (publicBuyerPrice x) (publicSellerPrice x)
    (buyerRevealed x) (sellerRevealed x) v (timestamp x).

(** The three events of the contract. *)
Inductive Event :=
  | SessionCreated (sessionId : bytes32) (buyer seller : address)
  | PriceRevealed (sessionId : bytes32) (revealer : address) (price : uint256)
  | DealMatched (sessionId : bytes32) (price : uint256).

(** ** Contract state

    [sessions] and [sessionIds] are the two storage variables.  [events] is
    the log of emitted events, oldest first.  [allowed] is the set of
    handles the contract has granted itself through [FHE.allowThis]. *)
Record State := mkState {
  sessions : gmap N BargainSession;
  sessionIds : list bytes32;
  events : list Event;
  allowed : gset N
}.

Definition init : State := mkState ∅ [] [] ∅.

(** Reading [sessions[id]]: an unwritten key reads as the zero struct. *)
Definition sessionAt (s : State) (id : bytes32) : BargainSession :=
  default zeroSession (sessions s !! id).

(** [msg.sender] and [block.timestamp] of a call. *)
Record Env := mkEnv {
  msg_sender : address;
  block_timestamp : uint256
}.

(** ** Reverts *)

Inductive Error :=
  | Require_failed (msg : string)   (* a [require] of the contract *)
  | FromExternal_reverted           (* [FHE.fromExternal] rejected the input proof *)
  | CheckSignatures_reverted        (* [FHE.checkSignatures] rejected the decryption proof *)
  | AbiDecode_reverted.             (* [abi.decode] on fewer than 32 bytes *)

(** The result of running a function body: either it returns with a new
    state, or it reverts; the state carried by [Revert] is the state the
    body had reached when it reverted. *)
Inductive Res (A : Type) :=
  | Ok (a : A) (s : State)
  | Revert (e : Error) (s : State).
Arguments Ok {A} a s.
Arguments Revert {A} e s.

Definition M (A : Type) : Type := State -> Res A.

Definition ret {A} (a : A) : M A := fun s => Ok a s.

Definition bind {A B} (m : M A) (k : A -> M B) : M B :=
  fun s => match m s with
           | Ok a s' => k a s'
           | Revert e s' => Revert e s'
           end.

#[global] Instance M_ret : MRet M := @ret.
#[global] Instance M_bind : MBind M := fun A B k m => bind m k.

Definition require (b : bool) (msg : string) : M unit :=
  fun s => if b then Ok tt s else Revert (Require_failed msg) s.

Definition revert_with {A} (e : Error) : M A := fun s => Revert e s.

Definition lift_option {A} (e : Error) (o : option A) : M A :=
  match o with Some a => ret a | None => revert_with e end.

(** Storage reads and writes. *)
Definition load (id : bytes32) : M BargainSession :=
  fun s => Ok (sessionAt s id) s.

Definition store (id : bytes32) (x : BargainSession) : M unit :=
  fun s => Ok tt (mkState (<[id := x]> (sessions s)) (sessionIds s) (events s) (allowed s)).

Definition update (id : bytes32) (f : BargainSession -> BargainSession) : M unit :=
  fun s => store id (f (sessionAt s id)) s.

Definition push_sessionId (id : bytes32) : M unit :=
  fun s => Ok tt (mkState (sessions s) (sessionIds s ++ [id]) (events s) (allowed s)).

Definition emit (e : Event) : M unit :=
  fun s => Ok tt (mkState (sessions s) (sessionIds s) (events s ++ [e]) (allowed s)).

Definition allowThis (h : euint32) : M unit :=
  fun s => Ok tt (mkState (sessions s) (sessionIds s) (events s) ({[h]} ∪ allowed s)).

Definition res_state {A} (r : Res A) : State :=
  match r with Ok _ s => s | Revert _ s => s end.

(** A transaction: a revert rolls the state back to the one before the call. *)
Definition transact {A} (m : M A) (s : State) : State * (Error + A) :=
  match m s with
  | Ok a s' => (s', inr a)
  | Revert e _ => (s, inl e)
  end.

(** [abi.decode(b, (uint256))]: the first 32 bytes, big endian; reverts on
    shorter input. *)
Definition be_to_N (bs : bytes) : N :=
  fold_left (fun acc b => acc * 256 + Byte.to_N b) bs 0.

Definition abi_decode_uint256 (b : bytes) : option uint256 :=
  if (length b <? 32)%nat then None else Some (be_to_N (take 32 b)).

(** ** The host: what the contract calls but does not define *)

Class FHEHost := {
  (** [keccak256(abi.encodePacked(a, t))] *)
  keccak256_packed : address -> uint256 -> bytes32;
  (** [FHE.fromExternal(handle, proof)] called on behalf of a sender;
      [None] when the library reverts. *)
  fromExternal : address -> externalEuint32 -> bytes -> option euint32;
  (** [FHE.isInitialized(handle)] *)
  isInitialized : euint32 -> bool;
  (** [FHE.toBytes32(handle)] *)
  toBytes32 : euint32 -> bytes32;
  (** [FHE.checkSignatures(cts, cleartexts, proof)]; [false] when it reverts. *)
  checkSignatures : list bytes32 -> bytes -> bytes -> bool
}.

(** ** The contract *)

Section BargainFHE.
Context `{host : FHEHost}.

Definition createSession (env : Env)
    (encryptedBuyerPrice encryptedSellerPrice : externalEuint32)
    (buyerProof sellerProof : bytes)
    (publicBuyerPrice publicSellerPrice : uint256) : M bytes32 :=
  let sessionId := keccak256_packed (msg_sender env) (block_timestamp env) in
  x ← load sessionId;
  require (timestamp x =? 0) "Session already exists";;
  encryptedBuyer ← lift_option FromExternal_reverted
    (fromExternal (msg_sender env) encryptedBuyerPrice buyerProof);
  encryptedSeller ← lift_option FromExternal_reverted
    (fromExternal (msg_sender env) encryptedSellerPrice sellerProof);
  require (isInitialized encryptedBuyer) "Invalid buyer encryption";;
  require (isInitialized encryptedSeller) "Invalid seller encryption";;
  store sessionId
    (mkSession (msg_sender env) 0 encryptedBuyer encryptedSeller
       publicBuyerPrice publicSellerPrice false false false (block_timestamp env));;
  allowThis encryptedBuyer;;
  allowThis encryptedSeller;;
  push_sessionId sessionId;;
  emit (SessionCreated sessionId (msg_sender env) 0);;
  mret sessionId.

Definition joinSession (env : Env) (sessionId : bytes32)
    (encryptedSellerPrice : externalEuint32) (sellerProof : bytes)
    (publicSellerPrice : uint256) : M unit :=
  x ← load sessionId;
  require (0 <? timestamp x) "Session does not exist";;
  x ← load sessionId;
  require (seller x =? 0) "Session already joined";;
  encryptedSeller ← lift_option FromExternal_reverted
    (fromExternal (msg_sender env) encryptedSellerPrice sellerProof);
  require (isInitialized encryptedSeller) "Invalid seller encryption";;
  update sessionId (set_seller (msg_sender env));;
  update sessionId (set_encryptedSellerPrice encryptedSeller);;
  update sessionId (set_publicSellerPrice publicSellerPrice);;
  allowThis encryptedSeller;;
  x ← load sessionId;
  emit (SessionCreated sessionId (buyer x) (msg_sender env)).

Definition checkDeal (sessionId : bytes32) : M unit :=
  x ← load sessionId;
  if publicSellerPrice x <=? publicBuyerPrice x then
    update sessionId (set_dealMatched true);;
    x ← load sessionId;
    emit (DealMatched sessionId (publicSellerPrice x))
  else mret tt.

Definition revealBuyerPrice (env : Env) (sessionId : bytes32)
    (abiEncodedClearValue decryptionProof : bytes) : M unit :=
  x ← load sessionId;
  require (0 <? timestamp x) "Session does not exist";;
  x ← load sessionId;
  require (msg_sender env =? buyer x) "Only buyer can reveal";;
  x ← load sessionId;
  require (negb (buyerRevealed x)) "Buyer already revealed";;
  x ← load sessionId;
  let cts := [toBytes32 (encryptedBuyerPrice x)] in
  (if checkSignatures cts abiEncodedClearValue decryptionProof
   then mret tt else revert_with CheckSignatures_reverted);;
  revealedPrice ← lift_option AbiDecode_reverted (abi_decode_uint256 abiEncodedClearValue);
  update sessionId (set_publicBuyerPrice revealedPrice);;
  update sessionId (set_buyerRevealed true);;
  emit (PriceRevealed sessionId (msg_sender env) revealedPrice);;
  x ← load sessionId;
  if sellerRevealed x then checkDeal sessionId else mret tt.

Definition revealSellerPrice (env : Env) (sessionId : bytes32)
    (abiEncodedClearValue decryptionProof : bytes) : M unit :=
  x ← load sessionId;
  require (0 <? timestamp x) "Session does not exist";;
  x ← load sessionId;
  require (msg_sender env =? seller x) "Only seller can reveal";;
  x ← load sessionId;
  require (negb (sellerRevealed x)) "Seller already revealed";;
  x ← load sessionId;
  let cts := [toBytes32 (encryptedSellerPrice x)] in
  (if checkSignatures cts abiEncodedClearValue decryptionProof
   then mret tt else revert_with CheckSignatures_reverted);;
  revealedPrice ← lift_option AbiDecode_reverted (abi_decode_uint256 abiEncodedClearValue);
  update sessionId (set_publicSellerPrice revealedPrice);;
  update sessionId (set_sellerRevealed true);;
  emit (PriceRevealed sessionId (msg_sender env) revealedPrice);;
  x ← load sessionId;
  if buyerRevealed x then checkDeal sessionId else mret tt.

(** The views. *)
Definition getEncryptedPrices (sessionId : bytes32) : M (euint32 * euint32) :=
  x ← load sessionId;
  require (0 <? timestamp x) "Session does not exist";;
  x ← load sessionId;
  mret (encryptedBuyerPrice x, encryptedSellerPrice x).

Definition getSession (sessionId : bytes32)
  : M (address * address * uint256 * uint256 * bool * bool * bool * uint256) :=
  x ← load sessionId;
  require (0 <? timestamp x) "Session does not exist";;
  session ← load sessionId;
  mret (buyer session, seller session, publicBuyerPrice session,
        publicSellerPrice session, buyerRevealed session, sellerRevealed session,
        dealMatched session, timestamp session).

Definition getAllSessionIds : M (list bytes32) :=
  fun s => Ok (sessionIds s) s.

Definition isAvailable : bool := true.

End BargainFHE.

(** ** Calls, transactions and reachable states *)

Inductive Call :=
  | CreateSession (encryptedBuyerPrice encryptedSellerPrice : externalEuint32)
      (buyerProof sellerProof : bytes) (publicBuyerPrice publicSellerPrice : uint256)
  | JoinSession (sessionId : bytes32) (encryptedSellerPrice : externalEuint32)
      (sellerProof : bytes) (publicSellerPrice : uint256)
  | RevealBuyerPrice (sessionId : bytes32) (abiEncodedClearValue decryptionProof : bytes)
  | RevealSellerPrice (sessionId : bytes32) (abiEncodedClearValue decryptionProof : bytes)
  | GetEncryptedPrices (sessionId : bytes32)
  | GetSession (sessionId : bytes32)
  | GetAllSessionIds
  | IsAvailable.

Section Execution.
Context `{host : FHEHost}.

(** Running a call for its effect on the state. *)
Definition exec (env : Env) (c : Call) : M unit :=
  match c with
  | CreateSession eb es bp sp pb ps => createSession env eb es bp sp pb ps ≫= λ _, mret tt
  | JoinSession id es sp ps => joinSession env id es sp ps
  | RevealBuyerPrice id v p => revealBuyerPrice env id v p
  | RevealSellerPrice id v p => revealSellerPrice env id v p
  | GetEncryptedPrices id => getEncryptedPrices id ≫= λ _, mret tt
  | GetSession id => getSession id ≫= λ _, mret tt
  | GetAllSessionIds => getAllSessionIds ≫= λ _, mret tt
  | IsAvailable => mret tt
  end.

Definition step (env : Env) (c : Call) (s : State) : State :=
  fst (transact (exec env c) s).

Definition succeeds (env : Env) (c : Call) (s : State) : bool :=
  match exec env c s with Ok _ _ => true | Revert _ _ => false end.

(** A sequence of transactions, first call first. *)
Fixpoint run (cs : list (Env * Call)) (s : State) : State :=
  match cs with
  | [] => s
  | (env, c) :: cs' => run cs' (step env c s)
  end.

(** Callers and block times the chain can produce: the zero address signs
    nothing and calls nothing, and no block carries time zero. *)
Definition valid_env (env : Env) : Prop :=
  msg_sender env ≠ 0 ∧ block_timestamp env ≠ 0.

Inductive Reachable : State → Prop :=
  | Reachable_init : Reachable init
  | Reachable_step s env c :
      Reachable s → valid_env env → Reachable (step env c s).

(** The ids a call appends to [sessionIds]. *)
Definition pushed (env : Env) (c : Call) (s : State) : list bytes32 :=
  match c with
  | CreateSession _ _ _ _ _ _ =>
      if succeeds env c s
      then [keccak256_packed (msg_sender env) (block_timestamp env)]
      else []
  | _ => []
  end.

(** The ids for which [createSession] committed along a run, in order. *)
Fixpoint created_ids (cs : list (Env * Call)) (s : State) : list bytes32 :=
  match cs with
  | [] => []
  | (env, c) :: cs' => pushed env c s ++ created_ids cs' (step env c s)
  end.

(** The calls of a run that reach [checkDeal] for a session: a reveal of
    that session that commits and finds the other side already revealed. *)
Definition evaluates (id : bytes32) (env : Env) (c : Call) (s : State) : bool :=
  match c with
  | RevealBuyerPrice id' _ _ =>
      bool_decide (id' = id) && succeeds env c s && sellerRevealed (sessionAt s id)
  | RevealSellerPrice id' _ _ =>
      bool_decide (id' = id) && succeeds env c s && buyerRevealed (sessionAt s id)
  | _ => false
  end.


(** The session a call writes when it commits. *)
Definition touched (env : Env) (c : Call) : option bytes32 :=
  match c with
  | CreateSession _ _ _ _ _ _ =>
      Some (keccak256_packed (msg_sender env) (block_timestamp env))
  | JoinSession id _ _ _ | RevealBuyerPrice id _ _ | RevealSellerPrice id _ _ => Some id
  | _ => None
  end.

End Execution.

(** The settlement prices of the [DealMatched] events of a session. *)
Definition deal_events (id : bytes32) (evs : list Event) : list uint256 :=
  omap (fun e => match e with
                 | DealMatched id' p => if bool_decide (id' = id) then Some p else None
                 | _ => None
                 end) evs.

(** ** Closed forms of the session written by each function *)

Definition created (sender : address) (eb es : euint32) (pb ps now : uint256) : BargainSession :=
  mkSession sender 0 eb es pb ps false false false now.

Definition joined (sender : address) (es : euint32) (ps : uint256) (x : BargainSession)
  : BargainSession :=
  set_publicSellerPrice ps (set_encryptedSellerPrice es (set_seller sender x)).

Definition deal_holds (x : BargainSession) : bool :=
  publicSellerPrice x <=? publicBuyerPrice x.

Definition deal_checked (x : BargainSession) : BargainSession :=
  if deal_holds x then set_dealMatched true x else x.

Definition buyer_shown (v : uint256) (x : BargainSession) : BargainSession :=
  set_buyerRevealed true (set_publicBuyerPrice v x).

Definition seller_shown (v : uint256) (x : BargainSession) : BargainSession :=
  set_sellerRevealed true (set_publicSellerPrice v x).

Definition after_reveal (other : bool) (x : BargainSession) : BargainSession :=
  if other then deal_checked x else x.

Definition deal_event (id : bytes32) (other : bool) (x : BargainSession) : list Event :=
  if other && deal_holds x then [DealMatched id (publicSellerPrice x)] else [].

Definition put (id : bytes32) (x : BargainSession) (ids : list bytes32)
    (evs : list Event) (hs : gset N) (s : State) : State :=
  mkState (<[id := x]> (sessions s)) (sessionIds s ++ ids) (events s ++ evs) (hs ∪ allowed s).

(** ** The invariant of reachable states *)

Definition session_ok (x : BargainSession) : Prop :=
  (timestamp x = 0 → x = zeroSession) ∧
  (sellerRevealed x = true → seller x ≠ 0) ∧
  (dealMatched x = true → buyerRevealed x = true ∧ sellerRevealed x = true) ∧
  (buyerRevealed x = true → sellerRevealed x = true → dealMatched x = deal_holds x).

Record Inv (s : State) : Prop := mkInv {
  inv_session : ∀ id, session_ok (sessionAt s id);
  inv_ids : ∀ id, id ∈ sessionIds s ↔ timestamp (sessionAt s id) ≠ 0;
  inv_nodup : NoDup (sessionIds s);
  inv_events : ∀ id,
    deal_events id (events s) =
    if dealMatched (sessionAt s id) then [publicSellerPrice (sessionAt s id)] else []
}.


(** ** What a committed call does *)

Section EffectOfCalls.
Context `{host : FHEHost}.

Inductive Effect (env : Env) (s : State) : Call → State → Prop :=
  | Effect_create eb es bp sp pb ps hb hs :
      let id := keccak256_packed (msg_sender env) (block_timestamp env) in
      timestamp (sessionAt s id) = 0 →
      fromExternal (msg_sender env) eb bp = Some hb →
      fromExternal (msg_sender env) es sp = Some hs →
      isInitialized hb = true → isInitialized hs = true →
      Effect env s (CreateSession eb es bp sp pb ps)
        (put id (created (msg_sender env) hb hs pb ps (block_timestamp env))
           [id] [SessionCreated id (msg_sender env) 0] ({[hs]} ∪ {[hb]}) s)
  | Effect_join id es sp ps hs :
      let x := sessionAt s id in
      timestamp x ≠ 0 → seller x = 0 →
      fromExternal (msg_sender env) es sp = Some hs →
      isInitialized hs = true →
      Effect env s (JoinSession id es sp ps)
        (put id (joined (msg_sender env) hs ps x) []
           [SessionCreated id (buyer x) (msg_sender env)] {[hs]} s)
  | Effect_buyer id clear proof v :
      let x := sessionAt s id in
      timestamp x ≠ 0 → msg_sender env = buyer x → buyerRevealed x = false →
      checkSignatures [toBytes32 (encryptedBuyerPrice x)] clear proof = true →
      abi_decode_uint256 clear = Some v →
      Effect env s (RevealBuyerPrice id clear proof)
        (put id (after_reveal (sellerRevealed x) (buyer_shown v x)) []
           (PriceRevealed id (msg_sender env) v
              :: deal_event id (sellerRevealed x) (buyer_shown v x)) ∅ s)
  | Effect_seller id clear proof v :
      let x := sessionAt s id in
      timestamp x ≠ 0 → msg_sender env = seller x → sellerRevealed x = false →
      checkSignatures [toBytes32 (encryptedSellerPrice x)] clear proof = true →
      abi_decode_uint256 clear = Some v →
      Effect env s (RevealSellerPrice id clear proof)
        (put id (after_reveal (buyerRevealed x) (seller_shown v x)) []
           (PriceRevealed id (msg_sender env) v
              :: deal_event id (buyerRevealed x) (seller_shown v x)) ∅ s)
  | Effect_view c :
      match c with
      | GetEncryptedPrices _ | GetSession _ | GetAllSessionIds | IsAvailable => True
      | _ => False
      end →
      Effect env s c s.

End EffectOfCalls.

(** ** A concrete host and concrete calls, for examples *)

Definition demoHost : FHEHost := {|
  keccak256_packed a t := a * 4294967296 + t;
  fromExternal _ h proof := match proof with [] => None | _ => Some h end;
  isInitialized h := negb (h =? 0);
  toBytes32 h := h;
  checkSignatures _ _ proof := match proof with [] => false | _ => true end
|}.

(** The 32-byte ABI word of a value below 256. *)
Definition abi_word (b : byte) : bytes := replicate 31 x00 ++ [b].

Definition alice : Env := mkEnv 10 1000.
Definition bob : Env := mkEnv 11 1001.
Definition ok_proof : bytes := [x01].
Definition demo_id : bytes32 := 42949672960 + 1000.

Definition demo_create : Env * Call := (alice, CreateSession 7 8 ok_proof ok_proof 90 95).
Definition demo_join : Env * Call := (bob, JoinSession demo_id 9 ok_proof 85).
Definition demo_buyer : Env * Call := (alice, RevealBuyerPrice demo_id (abi_word x64) ok_proof).
Definition demo_seller : Env * Call := (bob, RevealSellerPrice demo_id (abi_word x50) ok_proof).

(** ** Getters, progress of a session, and its events *)

(** The getter Solidity generates for [bytes32[] public sessionIds]: the
    element at an index, [None] standing for the out-of-bounds panic. *)
Definition sessionIds_at (i : uint256) (s : State) : option bytes32 :=
  sessionIds s !! N.to_nat i.

(** The tuple [getSession] returns for a stored session. *)
Definition session_view (x : BargainSession)
  : address * address * uint256 * uint256 * bool * bool * bool * uint256 :=
  (buyer x, seller x, publicBuyerPrice x, publicSellerPrice x,
   buyerRevealed x, sellerRevealed x, dealMatched x, timestamp x).

(** How far a session has come: created, joined, buyer revealed, seller
    revealed, one point each. *)
Definition progress (x : BargainSession) : nat :=
  ((if N.eqb (timestamp x) 0%N then 0 else 1) + (if N.eqb (seller x) 0%N then 0 else 1)
   + (if buyerRevealed x then 1 else 0) + (if sellerRevealed x then 1 else 0))%nat.

(** The session an event is about (its indexed first argument). *)
Definition event_session (e : Event) : bytes32 :=
  match e with
  | SessionCreated id _ _ | PriceRevealed id _ _ | DealMatched id _ => id
  end.

Definition events_of (id : bytes32) (evs : list Event) : list Event :=
  filter (λ e, event_session e = id) evs.

(** The three kinds of event. *)
Definition is_created (e : Event) : bool :=
  match e with SessionCreated _ _ _ => true | _ => false end.

Definition is_revealed (e : Event) : bool :=
  match e with PriceRevealed _ _ _ => true | _ => false end.

Definition is_matched (e : Event) : bool :=
  match e with DealMatched _ _ => true | _ => false end.

(** How many events of a kind the log holds for a session. *)
Definition count_events (kind : Event → bool) (id : bytes32) (evs : list Event) : nat :=
  length (filter (λ e, kind e = true) (events_of id evs)).

Section Writes.
Context `{host : FHEHost}.

(** Whether a call commits a write to a session, as a number. *)
Definition wrote (id : bytes32) (env : Env) (c : Call) (s : State) : nat :=
  if bool_decide (touched env c = Some id) && succeeds env c s then 1%nat else 0%nat.

(** The calls of a run that commit a write to a session. *)
Fixpoint writes (id : bytes32) (cs : list (Env * Call)) (s : State) : nat :=
  match cs with
  | [] => 0%nat
  | (env, c) :: cs' => (wrote id env c s + writes id cs' (step env c s))%nat
  end.

End Writes.

(** * Proofs *)

(** ** Unfolding the monad *)

Ltac unfold_sol :=
  unfold lift_option, revert_with, mbind, mret, M_bind, M_ret, bind, ret, require,
    load, update, store, push_sessionId, emit, allowThis in *.

Ltac by_running := vm_compute; first [reflexivity | discriminate | done].

Ltac solve_union :=
  try done; rewrite ?(left_id_L ∅ (∪)), ?(assoc_L (∪)); done.

Lemma sessionAt_insert (m : gmap N BargainSession) ids evs hs id x id' :
  sessionAt (mkState (<[id := x]> m) ids evs hs) id' =
  if decide (id = id') then x else default zeroSession (m !! id').
Proof.
  unfold sessionAt; simpl. rewrite lookup_insert. by case_decide.
Qed.

Lemma sessionAt_put id x ids evs hs s id' :
  sessionAt (put id x ids evs hs s) id' = if decide (id = id') then x else sessionAt s id'.
Proof. unfold put. by rewrite sessionAt_insert. Qed.

Lemma put_here id x ids evs hs s : sessionAt (put id x ids evs hs s) id = x.
Proof. rewrite sessionAt_put. by case_decide. Qed.

Lemma put_other id x ids evs hs s id' :
  id ≠ id' → sessionAt (put id x ids evs hs s) id' = sessionAt s id'.
Proof. intros. rewrite sessionAt_put. by case_decide. Qed.

Section ClosedForms.
Context `{host : FHEHost}.

Lemma createSession_eq env eb es bp sp pb ps s :
  createSession env eb es bp sp pb ps s =
  let id := keccak256_packed (msg_sender env) (block_timestamp env) in
  if timestamp (sessionAt s id) =? 0 then
    match fromExternal (msg_sender env) eb bp with
    | None => Revert FromExternal_reverted s
    | Some hb =>
      match fromExternal (msg_sender env) es sp with
      | None => Revert FromExternal_reverted s
      | Some hs =>
        if isInitialized hb then
          if isInitialized hs then
            Ok id (put id (created (msg_sender env) hb hs pb ps (block_timestamp env))
                     [id] [SessionCreated id (msg_sender env) 0] ({[hs]} ∪ {[hb]}) s)
          else Revert (Require_failed "Invalid seller encryption") s
        else Revert (Require_failed "Invalid buyer encryption") s
      end
    end
  else Revert (Require_failed "Session already exists") s.
Proof.
  unfold createSession, put, created. unfold_sol. cbv zeta.
  destruct (timestamp _ =? 0); [|done].
  destruct (fromExternal _ eb bp) as [hb|]; [|done].
  destruct (fromExternal _ es sp) as [hs|]; [|done].
  destruct (isInitialized hb); [|done].
  destruct (isInitialized hs); [|done].
  simpl. do 2 f_equal. solve_union.
Qed.

Lemma joinSession_eq env id es sp ps s :
  joinSession env id es sp ps s =
  let x := sessionAt s id in
  if 0 <? timestamp x then
    if seller x =? 0 then
      match fromExternal (msg_sender env) es sp with
      | None => Revert FromExternal_reverted s
      | Some hs =>
        if isInitialized hs then
          Ok tt (put id (joined (msg_sender env) hs ps x) []
                   [SessionCreated id (buyer x) (msg_sender env)] {[hs]} s)
        else Revert (Require_failed "Invalid seller encryption") s
      end
    else Revert (Require_failed "Session already joined") s
  else Revert (Require_failed "Session does not exist") s.
Proof.
  unfold joinSession, put, joined. unfold_sol. cbv zeta.
  destruct (0 <? _); [|done].
  destruct (seller _ =? 0); [|done].
  destruct (fromExternal _ es sp) as [hs|]; [|done].
  destruct (isInitialized hs); [|done].
  simpl. rewrite !sessionAt_insert. repeat case_decide; try done.
  rewrite !insert_insert_eq. by rewrite app_nil_r.
Qed.

Lemma checkDeal_eq id s :
  checkDeal id s =
  let x := sessionAt s id in
  if deal_holds x then
    Ok tt (put id (set_dealMatched true x) [] [DealMatched id (publicSellerPrice x)] ∅ s)
  else Ok tt s.
Proof.
  unfold checkDeal, put, deal_holds. unfold_sol. cbv zeta.
  destruct (_ <=? _); [|done].
  simpl. rewrite !sessionAt_insert. case_decide; [|done].
  simpl. do 2 f_equal; [by rewrite app_nil_r | solve_union].
Qed.

Lemma revealBuyerPrice_eq env id clear proof s :
  revealBuyerPrice env id clear proof s =
  let x := sessionAt s id in
  if 0 <? timestamp x then
    if msg_sender env =? buyer x then
      if buyerRevealed x then Revert (Require_failed "Buyer already revealed") s
      else if checkSignatures [toBytes32 (encryptedBuyerPrice x)] clear proof then
        match abi_decode_uint256 clear with
        | None => Revert AbiDecode_reverted s
        | Some v =>
          let x1 := buyer_shown v x in
          Ok tt (put id (after_reveal (sellerRevealed x) x1) []
                   (PriceRevealed id (msg_sender env) v :: deal_event id (sellerRevealed x) x1)
                   ∅ s)
        end
      else Revert CheckSignatures_reverted s
    else Revert (Require_failed "Only buyer can reveal") s
  else Revert (Require_failed "Session does not exist") s.
Proof.
  unfold revealBuyerPrice. unfold_sol. cbv zeta.
  destruct (0 <? _); [|done].
  destruct (_ =? buyer _); [|done].
  destruct (buyerRevealed (sessionAt s id)) eqn:Hb; [done|]. simpl.
  destruct (checkSignatures _ _ _); [|done].
  destruct (abi_decode_uint256 clear) as [v|]; [|done].
  rewrite !sessionAt_insert. repeat case_decide; try done. simpl.
  unfold after_reveal, deal_event.
  destruct (sellerRevealed (sessionAt s id)) eqn:Hs; simpl.
  - rewrite checkDeal_eq. cbv zeta. rewrite !sessionAt_insert.
    repeat case_decide; try done. unfold deal_checked.
    replace (deal_holds (set_buyerRevealed true (set_publicBuyerPrice v (sessionAt s id))))
      with (deal_holds (buyer_shown v (sessionAt s id))) by done.
    destruct (deal_holds (buyer_shown v (sessionAt s id))); unfold put; simpl.
    + rewrite !insert_insert_eq, <- app_assoc. do 2 f_equal; solve_union.
    + rewrite !insert_insert_eq, app_nil_r. do 2 f_equal; solve_union.
  - unfold put; simpl. rewrite !insert_insert_eq, app_nil_r. do 2 f_equal; solve_union.
Qed.

Lemma revealSellerPrice_eq env id clear proof s :
  revealSellerPrice env id clear proof s =
  let x := sessionAt s id in
  if 0 <? timestamp x then
    if msg_sender env =? seller x then
      if sellerRevealed x then Revert (Require_failed "Seller already revealed") s
      else if checkSignatures [toBytes32 (encryptedSellerPrice x)] clear proof then
        match abi_decode_uint256 clear with
        | None => Revert AbiDecode_reverted s
        | Some v =>
          let x1 := seller_shown v x in
          Ok tt (put id (after_reveal (buyerRevealed x) x1) []
                   (PriceRevealed id (msg_sender env) v :: deal_event id (buyerRevealed x) x1)
                   ∅ s)
        end
      else Revert CheckSignatures_reverted s
    else Revert (Require_failed "Only seller can reveal") s
  else Revert (Require_failed "Session does not exist") s.
Proof.
  unfold revealSellerPrice. unfold_sol. cbv zeta.
  destruct (0 <? _); [|done].
  destruct (_ =? seller _); [|done].
  destruct (sellerRevealed (sessionAt s id)) eqn:Hb; [done|]. simpl.
  destruct (checkSignatures _ _ _); [|done].
  destruct (abi_decode_uint256 clear) as [v|]; [|done].
  rewrite !sessionAt_insert. repeat case_decide; try done. simpl.
  unfold after_reveal, deal_event.
  destruct (buyerRevealed (sessionAt s id)) eqn:Hs; simpl.
  - rewrite checkDeal_eq. cbv zeta. rewrite !sessionAt_insert.
    repeat case_decide; try done. unfold deal_checked.
    replace (deal_holds (set_sellerRevealed true (set_publicSellerPrice v (sessionAt s id))))
      with (deal_holds (seller_shown v (sessionAt s id))) by done.
    destruct (deal_holds (seller_shown v (sessionAt s id))); unfold put; simpl.
    + rewrite !insert_insert_eq, <- app_assoc. do 2 f_equal; solve_union.
    + rewrite !insert_insert_eq, app_nil_r. do 2 f_equal; solve_union.
  - unfold put; simpl. rewrite !insert_insert_eq, app_nil_r. do 2 f_equal; solve_union.
Qed.

End ClosedForms.

(** ** Sessions that satisfy the invariant *)

Lemma session_ok_zero : session_ok zeroSession.
Proof. by repeat split. Qed.

Lemma session_ok_created sender hb hs pb ps now :
  now ≠ 0 → session_ok (created sender hb hs pb ps now).
Proof. by repeat split. Qed.

Lemma session_ok_unmatched x :
  session_ok x → buyerRevealed x && sellerRevealed x = false → dealMatched x = false.
Proof.
  intros (_ & _ & Hm & _) Hf. destruct (dealMatched x); [|done].
  destruct Hm as [Hb Hs]; [done|]. by rewrite Hb, Hs in Hf.
Qed.

Lemma session_ok_joined sender hs ps x :
  session_ok x → seller x = 0 → timestamp x ≠ 0 → sender ≠ 0 →
  session_ok (joined sender hs ps x).
Proof.
  intros Hok Hs Ht Hsender.
  assert (sellerRevealed x = false) as Hsr.
  { destruct Hok as (_ & Hsel & _). destruct (sellerRevealed x); [|done]. by destruct Hsel. }
  assert (dealMatched x = false) as Hdm.
  { apply session_ok_unmatched; [done|]. rewrite Hsr. apply andb_false_r. }
  destruct x; simpl in *; subst. by repeat split.
Qed.

Lemma session_ok_buyer_shown v x :
  session_ok x → buyerRevealed x = false → timestamp x ≠ 0 →
  session_ok (after_reveal (sellerRevealed x) (buyer_shown v x)).
Proof.
  intros Hok Hb Ht.
  assert (dealMatched x = false) as Hdm.
  { apply session_ok_unmatched; [done|]. by rewrite Hb. }
  destruct Hok as (_ & Hsel & _).
  destruct x as [b sl eb es pb ps br sr dm ts]; simpl in *; subst.
  unfold after_reveal, deal_checked, deal_holds, buyer_shown; simpl.
  destruct sr; [destruct (ps <=? v) eqn:Hle|]; unfold deal_holds; simpl;
    repeat split; intros; simplify_eq; auto.
Qed.

Lemma session_ok_seller_shown v x :
  session_ok x → sellerRevealed x = false → timestamp x ≠ 0 → seller x ≠ 0 →
  session_ok (after_reveal (buyerRevealed x) (seller_shown v x)).
Proof.
  intros Hok Hs Ht Hsel.
  assert (dealMatched x = false) as Hdm.
  { apply session_ok_unmatched; [done|]. rewrite Hs. apply andb_false_r. }
  destruct x as [b sl eb es pb ps br sr dm ts]; simpl in *; subst.
  unfold after_reveal, deal_checked, deal_holds, seller_shown; simpl.
  destruct br; [destruct (v <=? pb) eqn:Hle|]; unfold deal_holds; simpl;
    repeat split; intros; simplify_eq; auto.
Qed.

Lemma deal_events_app id evs1 evs2 :
  deal_events id (evs1 ++ evs2) = deal_events id evs1 ++ deal_events id evs2.
Proof. unfold deal_events. apply omap_app. Qed.

Lemma after_reveal_timestamp other x :
  timestamp (after_reveal other x) = timestamp x.
Proof. unfold after_reveal, deal_checked. by repeat case_match. Qed.

Lemma deal_events_reveal_other id id' sender v other x :
  id' ≠ id → deal_events id' (PriceRevealed id sender v :: deal_event id other x) = [].
Proof.
  intros Hne. unfold deal_event. case_match; [|done].
  simpl. by rewrite bool_decide_eq_false_2.
Qed.

Lemma deal_events_reveal id sender v other x :
  dealMatched x = false →
  [] ++ deal_events id (PriceRevealed id sender v :: deal_event id other x) =
  if dealMatched (after_reveal other x)
  then [publicSellerPrice (after_reveal other x)] else [].
Proof.
  intros Hdm. unfold deal_event, after_reveal, deal_checked.
  destruct other; simpl; [destruct (deal_holds x); simpl|];
    rewrite ?bool_decide_eq_true_2 by done; by rewrite ?Hdm.
Qed.

(** How a committed write of one session carries the invariant over. *)
Lemma Inv_put s id x ids evs hs :
  Inv s → session_ok x →
  (ids = [] ∧ timestamp x = timestamp (sessionAt s id) ∨
   ids = [id] ∧ timestamp (sessionAt s id) = 0 ∧ timestamp x ≠ 0) →
  (∀ id', id' ≠ id → deal_events id' evs = []) →
  deal_events id (events s) ++ deal_events id evs =
    (if dealMatched x then [publicSellerPrice x] else []) →
  Inv (put id x ids evs hs s).
Proof.
  intros [Hses Hids Hnd Hev] Hok Hcase Hother Hmine. split.
  - intros id'. rewrite sessionAt_put. case_decide; [done | apply Hses].
  - intros id'. rewrite sessionAt_put. simpl.
    destruct Hcase as [[-> Ht] | (-> & Ht0 & Ht)].
    + rewrite app_nil_r, Hids. case_decide; [subst; by rewrite Ht | done].
    + rewrite elem_of_app, list_elem_of_singleton, Hids.
      case_decide; [subst; intuition | intuition congruence].
  - simpl. destruct Hcase as [[-> _] | (-> & Ht0 & _)].
    + by rewrite app_nil_r.
    + apply NoDup_app. split; [done|]. split; [|apply NoDup_singleton].
      intros id' Hin ->%list_elem_of_singleton. by apply Hids in Hin.
  - intros id'. rewrite sessionAt_put. simpl. rewrite deal_events_app.
    case_decide; [by subst|]. rewrite Hother, app_nil_r by done. apply Hev.
Qed.

Lemma Inv_init : Inv init.
Proof.
  split.
  - intros id. apply session_ok_zero.
  - intros id. unfold sessionAt, init; simpl. rewrite lookup_empty; simpl.
    split; [by intros ?%not_elem_of_nil | done].
  - apply NoDup_nil_2.
  - intros id. unfold sessionAt, init; simpl. by rewrite lookup_empty.
Qed.

(** ** Every committed call keeps the invariant *)

Section Effects.
Context `{host : FHEHost}.

Lemma ltb_0_true n : (0 <? n) = true → n ≠ 0.
Proof. rewrite N.ltb_lt. intros Hlt ->. by apply (N.lt_irrefl 0). Qed.

Lemma ltb_0_false n : (0 <? n) = false → n = 0.
Proof. rewrite N.ltb_ge. apply N.le_0_r. Qed.

Lemma getEncryptedPrices_state id s : res_state (getEncryptedPrices id s) = s.
Proof. unfold getEncryptedPrices. unfold_sol. by destruct (0 <? _). Qed.

Lemma getSession_state id s : res_state (getSession id s) = s.
Proof. unfold getSession. unfold_sol. by destruct (0 <? _). Qed.

(** A call that commits has one of the five effects. *)
Lemma exec_ok env c s s' : exec env c s = Ok tt s' → Effect env s c s'.
Proof.
  destruct c as [eb es bp sp pb ps|id es sp ps|id clear proof|id clear proof|id|id| |];
    unfold exec.
  - unfold mbind at 1, M_bind, bind. rewrite createSession_eq. cbv zeta.
    destruct (timestamp _ =? 0) eqn:Ht; [|done]. apply N.eqb_eq in Ht.
    destruct (fromExternal _ eb bp) as [hb|] eqn:Hb; [|done].
    destruct (fromExternal _ es sp) as [hs|] eqn:Hs; [|done].
    destruct (isInitialized hb) eqn:Hib; [|done].
    destruct (isInitialized hs) eqn:His; [|done].
    intros [= <-]. by eapply Effect_create.
  - rewrite joinSession_eq. cbv zeta.
    destruct (0 <? _) eqn:Ht; [|done]. apply ltb_0_true in Ht.
    destruct (seller _ =? 0) eqn:Hsel; [|done]. apply N.eqb_eq in Hsel.
    destruct (fromExternal _ es sp) as [hs|] eqn:Hs; [|done].
    destruct (isInitialized hs) eqn:His; [|done].
    intros [= <-]. by eapply Effect_join.
  - rewrite revealBuyerPrice_eq. cbv zeta.
    destruct (0 <? _) eqn:Ht; [|done]. apply ltb_0_true in Ht.
    destruct (_ =? buyer _) eqn:Hsel; [|done]. apply N.eqb_eq in Hsel.
    destruct (buyerRevealed _) eqn:Hb; [done|].
    destruct (checkSignatures _ _ _) eqn:Hc; [|done].
    destruct (abi_decode_uint256 clear) as [v|] eqn:Hv; [|done].
    intros [= <-]. by eapply Effect_buyer.
  - rewrite revealSellerPrice_eq. cbv zeta.
    destruct (0 <? _) eqn:Ht; [|done]. apply ltb_0_true in Ht.
    destruct (_ =? seller _) eqn:Hsel; [|done]. apply N.eqb_eq in Hsel.
    destruct (sellerRevealed _) eqn:Hb; [done|].
    destruct (checkSignatures _ _ _) eqn:Hc; [|done].
    destruct (abi_decode_uint256 clear) as [v|] eqn:Hv; [|done].
    intros [= <-]. by eapply Effect_seller.
  - unfold mbind at 1, M_bind, bind.
    pose proof (getEncryptedPrices_state id s) as Hst.
    destruct (getEncryptedPrices id s); [|done].
    intros [= <-]. simpl in Hst. subst. by apply Effect_view.
  - unfold mbind at 1, M_bind, bind.
    pose proof (getSession_state id s) as Hst.
    destruct (getSession id s); [|done].
    intros [= <-]. simpl in Hst. subst. by apply Effect_view.
  - intros [= <-]. by apply Effect_view.
  - intros [= <-]. by apply Effect_view.
Qed.

(** A call that reverts has written nothing by the time it reverts. *)
Lemma exec_revert env c s e s' : exec env c s = Revert e s' → s' = s.
Proof.
  destruct c as [eb es bp sp pb ps|id es sp ps|id clear proof|id clear proof|id|id| |];
    unfold exec.
  - unfold mbind at 1, M_bind, bind. rewrite createSession_eq. cbv zeta.
    repeat case_match; (done || congruence).
  - rewrite joinSession_eq. cbv zeta. repeat case_match; congruence.
  - rewrite revealBuyerPrice_eq. cbv zeta. repeat case_match; congruence.
  - rewrite revealSellerPrice_eq. cbv zeta. repeat case_match; congruence.
  - unfold mbind at 1, M_bind, bind.
    pose proof (getEncryptedPrices_state id s) as Hst.
    destruct (getEncryptedPrices id s); [done|]. simpl in Hst. congruence.
  - unfold mbind at 1, M_bind, bind.
    pose proof (getSession_state id s) as Hst.
    destruct (getSession id s); [done|]. simpl in Hst. congruence.
  - done.
  - done.
Qed.

Lemma step_cases env c s :
  (succeeds env c s = false ∧ step env c s = s) ∨
  (succeeds env c s = true ∧ exec env c s = Ok tt (step env c s)
   ∧ Effect env s c (step env c s)).
Proof.
  unfold step, succeeds, transact.
  destruct (exec env c s) as [[] s'|e s'] eqn:Hx; [right | left]; simpl; [|done].
  split; [done|]. split; [done|]. by apply exec_ok.
Qed.

Lemma Effect_Inv env c s s' :
  valid_env env → Inv s → Effect env s c s' → Inv s'.
Proof.
  intros [Hsender Hnow] HI He.
  destruct He as [eb es bp sp pb ps hb hs id Ht Hb Hs Hib His
                 |id es sp ps hs x Ht Hsel Hs His
                 |id clear proof v x Ht Hsnd Hb Hc Hv
                 |id clear proof v x Ht Hsnd Hb Hc Hv
                 |c Hc]; [| | | |done].
  - apply Inv_put; [done | by apply session_ok_created | by right | done |].
    rewrite (inv_events _ HI).
    destruct (inv_session _ HI id) as [Hz _]. by rewrite (Hz Ht).
  - pose proof (inv_session _ HI id) as Hok. fold x in Hok.
    assert (dealMatched x = false) as Hdm.
    { apply session_ok_unmatched; [done|].
      destruct Hok as (_ & Hsr & _). destruct (sellerRevealed x); [|apply andb_false_r].
      by destruct Hsr. }
    apply Inv_put; [done | by apply session_ok_joined | by left | done |].
    rewrite (inv_events _ HI). fold x. rewrite Hdm.
    replace (dealMatched (joined (msg_sender env) hs ps x)) with (dealMatched x) by done.
    by rewrite Hdm.
  - pose proof (inv_session _ HI id) as Hok. fold x in Hok.
    assert (dealMatched x = false) as Hdm.
    { apply session_ok_unmatched; [done|]. by rewrite Hb. }
    apply Inv_put; [done | by apply session_ok_buyer_shown | | |].
    + left. split; [done|]. by rewrite after_reveal_timestamp.
    + intros id' Hne. by apply deal_events_reveal_other.
    + rewrite (inv_events _ HI). fold x. rewrite Hdm.
      apply deal_events_reveal. exact Hdm.
  - pose proof (inv_session _ HI id) as Hok. fold x in Hok.
    assert (dealMatched x = false) as Hdm.
    { apply session_ok_unmatched; [done|]. rewrite Hb. apply andb_false_r. }
    apply Inv_put; [done | | | |].
    + apply session_ok_seller_shown; auto. fold x. by rewrite <- Hsnd.
    + left. split; [done|]. by rewrite after_reveal_timestamp.
    + intros id' Hne. by apply deal_events_reveal_other.
    + rewrite (inv_events _ HI). fold x. rewrite Hdm.
      apply deal_events_reveal. exact Hdm.
Qed.

Lemma step_Inv env c s : valid_env env → Inv s → Inv (step env c s).
Proof.
  intros Hv HI. destruct (step_cases env c s) as [[_ ->] | (_ & _ & He)]; [done|].
  by eapply Effect_Inv.
Qed.

Lemma Reachable_Inv s : Reachable s → Inv s.
Proof.
  induction 1 as [|s env c _ IH Hv]; [apply Inv_init | by apply step_Inv].
Qed.

Lemma run_Reachable cs s :
  Reachable s → Forall (λ ec, valid_env ec.1) cs → Reachable (run cs s).
Proof.
  revert s. induction cs as [|[env c] cs IH]; intros s Hr Hall; simpl; [done|].
  inversion Hall; subst. apply IH; [|done]. by apply Reachable_step.
Qed.

End Effects.

(** ** Two runs of the concrete host *)

(** The buyer bids 100 and the seller asks 80: no deal after the first
    reveal, a deal at 80 after the second. *)
Example scenario_match :
  let s3 := run (host := demoHost) [demo_create; demo_join; demo_buyer] init in
  let s4 := run (host := demoHost) [demo_create; demo_join; demo_buyer; demo_seller] init in
  dealMatched (sessionAt s3 demo_id) = false ∧
  dealMatched (sessionAt s4 demo_id) = true ∧
  events s4 = [SessionCreated demo_id 10 0; SessionCreated demo_id 10 11;
               PriceRevealed demo_id 10 100; PriceRevealed demo_id 11 80;
               DealMatched demo_id 80].
Proof. repeat split. Qed.

(** The buyer bids 50 and the seller asks 80: no deal and no deal event. *)
Example scenario_no_match :
  let s4 := run (host := demoHost)
              [demo_create; demo_join;
               (alice, RevealBuyerPrice demo_id (abi_word x32) ok_proof); demo_seller] init in
  dealMatched (sessionAt s4 demo_id) = false ∧
  deal_events demo_id (events s4) = [].
Proof. repeat split. Qed.

(** ** Sessions a call does not write *)

Section Touched.
Context `{host : FHEHost}.

Lemma Effect_untouched env c s s' id :
  Effect env s c s' → touched env c ≠ Some id →
  sessionAt s' id = sessionAt s id ∧
  deal_events id (events s') = deal_events id (events s).
Proof.
  intros He Hne.
  destruct He; simpl in Hne; [| | | |done];
    assert (id0 ≠ id) as Hne' by (intros <-; apply Hne; reflexivity);
    (split; [by apply put_other|]); simpl; rewrite deal_events_app.
  - by rewrite app_nil_r.
  - by rewrite app_nil_r.
  - rewrite deal_events_reveal_other by done. by rewrite app_nil_r.
  - rewrite deal_events_reveal_other by done. by rewrite app_nil_r.
Qed.

Lemma step_untouched env c s id :
  touched env c ≠ Some id →
  sessionAt (step env c s) id = sessionAt s id ∧
  deal_events id (events (step env c s)) = deal_events id (events s).
Proof.
  intros Hne. destruct (step_cases env c s) as [[_ ->] | (_ & _ & He)]; [done|].
  by eapply Effect_untouched.
Qed.

(** Once both sides have revealed, no call commits a write to the session. *)
Lemma step_frozen env c s id :
  Inv s → valid_env env →
  buyerRevealed (sessionAt s id) = true → sellerRevealed (sessionAt s id) = true →
  touched env c = Some id → step env c s = s.
Proof.
  intros HI Hv Hb Hs Ht.
  destruct (step_cases env c s) as [[_ ->] | (_ & _ & He)]; [done|].
  destruct (inv_session _ HI id) as (Hz & Hsel & _).
  destruct He as [eb es bp sp pb ps hb hs id0 Ht0 _ _ _ _
                 |id0 es sp ps hs x _ Hsel0 _ _
                 |id0 clear proof v x _ _ Hb0 _ _
                 |id0 clear proof v x _ _ Hs0 _ _
                 |c Hc]; simpl in Ht; simplify_eq; [exfalso.. | done].
  - rewrite (Hz Ht0) in Hb. done.
  - by destruct Hsel.
  - subst x. congruence.
  - subst x. congruence.
Qed.

End Touched.

(** ** The deal decision (C1) *)

Lemma after_reveal_fields other x :
  buyerRevealed (after_reveal other x) = buyerRevealed x ∧
  sellerRevealed (after_reveal other x) = sellerRevealed x ∧
  publicBuyerPrice (after_reveal other x) = publicBuyerPrice x ∧
  publicSellerPrice (after_reveal other x) = publicSellerPrice x ∧
  deal_holds (after_reveal other x) = deal_holds x.
Proof. unfold after_reveal, deal_checked. by repeat case_match. Qed.

Section Decision.
Context `{host : FHEHost}.

(** The call that turns the second reveal flag of a session on is a reveal
    of that session, it finds [dealMatched] still false, and it emits the
    reveal event followed by the deal event exactly when the bid covers
    the ask. *)
Lemma second_reveal env c s id :
  Inv s → valid_env env →
  buyerRevealed (sessionAt s id) && sellerRevealed (sessionAt s id) = false →
  buyerRevealed (sessionAt (step env c s) id) = true →
  sellerRevealed (sessionAt (step env c s) id) = true →
  let x' := sessionAt (step env c s) id in
  dealMatched (sessionAt s id) = false ∧
  evaluates id env c s = true ∧
  ∃ v, events (step env c s) =
       events s ++ PriceRevealed id (msg_sender env) v
         :: (if deal_holds x' then [DealMatched id (publicSellerPrice x')] else []).
Proof.
  intros HI Hv Hnot Hb' Hs' x'.
  split; [by apply session_ok_unmatched; [apply (inv_session _ HI)|]|].
  destruct (decide (touched env c = Some id)) as [Ht|Ht]; cycle 1.
  { destruct (step_untouched env c s id Ht) as [Heq _].
    rewrite Heq in Hb', Hs'. by rewrite Hb', Hs' in Hnot. }
  destruct (step_cases env c s) as [[_ Heq] | (Hok & _ & He)].
  { rewrite Heq in Hb', Hs'. by rewrite Hb', Hs' in Hnot. }
  subst x'. revert Hb' Hs'.
  destruct He as [eb es bp sp pb ps hb hs id0 Ht0 _ _ _ _
                 |id0 es sp ps hs x _ Hsel0 _ _
                 |id0 clear proof v x _ _ Hb0 _ _
                 |id0 clear proof v x _ _ Hs0 _ _
                 |c Hc]; simpl in Ht; simplify_eq; rewrite ?put_here.
  - done.
  - intros Hb' Hs'. simpl in Hb', Hs'. subst x. by rewrite Hb', Hs' in Hnot.
  - destruct (after_reveal_fields (sellerRevealed x) (buyer_shown v x))
      as (_ & -> & _ & -> & ->). simpl. intros _ Hs'. fold x.
    split; [|exists v]; simpl in *; rewrite ?Hok, ?Hs', ?bool_decide_eq_true_2; try done.
  - destruct (after_reveal_fields (buyerRevealed x) (seller_shown v x))
      as (-> & _ & _ & -> & ->). simpl. intros Hb' _. fold x.
    split; [|exists v]; simpl in *; rewrite ?Hok, ?Hb', ?bool_decide_eq_true_2; try done.
  - intros Hb' Hs'. by rewrite Hb', Hs' in Hnot.
Qed.

End Decision.

(** C1.  In a reachable state, take any call and look at a session whose two
    reveal flags are both true after it.  Then [dealMatched] is true exactly
    when the revealed ask is at most the revealed bid (a tie matches), and
    the log holds one [DealMatched] event for the session, carrying
    [publicSellerPrice], when it is true and none when it is false.  If the
    call is the one that made both flags true, [dealMatched] was false
    before it and the call emitted the reveal event followed by
    [DealMatched(id, publicSellerPrice)] exactly when the bid covers the ask.
    If both flags were already true, the call changes neither the session
    nor its [DealMatched] events: the decision is taken once. *)
Theorem C1_deal_matched_iff_bid_covers_ask `{host : FHEHost} env c s id :
  Reachable s → valid_env env →
  let s' := step env c s in
  let x' := sessionAt s' id in
  buyerRevealed x' = true → sellerRevealed x' = true →
  (dealMatched x' = true ↔ (publicSellerPrice x' ≤ publicBuyerPrice x')%N) ∧
  deal_events id (events s') =
    (if dealMatched x' then [publicSellerPrice x'] else []) ∧
  if buyerRevealed (sessionAt s id) && sellerRevealed (sessionAt s id)
  then x' = sessionAt s id ∧ deal_events id (events s') = deal_events id (events s)
  else dealMatched (sessionAt s id) = false ∧
       ∃ v, events s' =
            events s ++ PriceRevealed id (msg_sender env) v
              :: (if publicSellerPrice x' <=? publicBuyerPrice x'
                  then [DealMatched id (publicSellerPrice x')] else []).
Proof.
  intros Hr Hv s' x' Hb' Hs'.
  pose proof (Reachable_Inv _ Hr) as HI.
  pose proof (step_Inv env c s Hv HI) as HI'. fold s' in HI'.
  split; [|split].
  - destruct (inv_session _ HI' id) as (_ & _ & _ & Hd). fold x' in Hd.
    rewrite (Hd Hb' Hs'). unfold deal_holds. by rewrite N.leb_le.
  - apply (inv_events _ HI').
  - destruct (buyerRevealed (sessionAt s id) && sellerRevealed (sessionAt s id)) eqn:Hboth.
    + apply andb_true_iff in Hboth as [Hb Hs].
      destruct (decide (touched env c = Some id)) as [Ht|Ht].
      * subst x' s'. by rewrite (step_frozen env c s id HI Hv Hb Hs Ht).
      * apply (step_untouched env c s id Ht).
    + destruct (second_reveal env c s id HI Hv Hboth Hb' Hs') as (Hdm & _ & v & Hev).
      split; [done|]. by exists v.
Qed.


Lemma C1_witness :
  let s := run (host := demoHost) [demo_create; demo_join; demo_buyer] init in
  let s' := step (host := demoHost) bob demo_seller.2 s in
  Reachable (host := demoHost) s ∧ valid_env bob ∧
  buyerRevealed (sessionAt s' demo_id) = true ∧
  sellerRevealed (sessionAt s' demo_id) = true ∧
  dealMatched (sessionAt s' demo_id) = true ∧
  deal_events demo_id (events s') = [80].
Proof.
  intros s s'.
  assert (Reachable (host := demoHost) s) as Hr.
  { apply run_Reachable; [apply Reachable_init|]. repeat constructor; done. }
  assert (valid_env bob) as Hv by (split; done).
  assert (buyerRevealed (sessionAt s' demo_id) = true) as Hb by (vm_compute; reflexivity).
  assert (sellerRevealed (sessionAt s' demo_id) = true) as Hs by (vm_compute; reflexivity).
  destruct (C1_deal_matched_iff_bid_covers_ask (host := demoHost)
              bob demo_seller.2 s demo_id Hr Hv Hb Hs) as (Hiff & Hev & _).
  split; [exact Hr|]. split; [exact Hv|]. split; [exact Hb|]. split; [exact Hs|].
  assert (dealMatched (sessionAt s' demo_id) = true) as Hdm.
  { apply Hiff. vm_compute. discriminate. }
  split; [exact Hdm|]. etrans; [exact Hev|]. vm_compute. reflexivity.
Defined.

(** ** Monotone flags and the single evaluation (C2) *)

Section Monotone.
Context `{host : FHEHost}.

Lemma step_monotone env c s id :
  Inv s → valid_env env →
  let x := sessionAt s id in
  let x' := sessionAt (step env c s) id in
  (buyerRevealed x = true → buyerRevealed x' = true) ∧
  (sellerRevealed x = true → sellerRevealed x' = true) ∧
  (dealMatched x = true → dealMatched x' = true).
Proof.
  intros HI Hv x x'. subst x x'.
  destruct (decide (touched env c = Some id)) as [Ht|Ht]; cycle 1.
  { destruct (step_untouched env c s id Ht) as [-> _]. done. }
  destruct (step_cases env c s) as [[_ ->] | (_ & _ & He)]; [done|].
  destruct (inv_session _ HI id) as (Hz & _).
  destruct He as [eb es bp sp pb ps hb hs id0 Ht0 _ _ _ _
                 |id0 es sp ps hs x _ _ _ _
                 |id0 clear proof v x _ _ _ _ _
                 |id0 clear proof v x _ _ _ _ _
                 |c Hc]; simpl in Ht; simplify_eq; rewrite ?put_here; [| | | |done].
  - rewrite (Hz Ht0). done.
  - done.
  - subst x. unfold after_reveal, deal_checked.
    repeat case_match; simpl; repeat split; auto; congruence.
  - subst x. unfold after_reveal, deal_checked.
    repeat case_match; simpl; repeat split; auto; congruence.
Qed.



Lemma put_put id x y evs1 evs2 s :
  put id y [] evs2 ∅ (put id x [] evs1 ∅ s) = put id y [] (evs1 ++ evs2) ∅ s.
Proof.
  unfold put; simpl. rewrite insert_insert_eq, !app_nil_r, <- app_assoc.
  f_equal. solve_union.
Qed.

(** [evaluates] is the test in front of the call of [checkDeal]: a reveal
    that commits first writes its own price and flag and emits
    [PriceRevealed]; the state it ends in is the result of [checkDeal] on
    that intermediate state when [evaluates] holds, and the intermediate
    state itself otherwise. *)
Lemma evaluates_runs_checkDeal env c s id :
  succeeds env c s = true →
  match c with
  | RevealBuyerPrice id' _ _ =>
      id' = id →
      ∃ v, let mid := put id (buyer_shown v (sessionAt s id)) []
                        [PriceRevealed id (msg_sender env) v] ∅ s in
           if evaluates id env c s
           then checkDeal id mid = Ok tt (step env c s)
           else step env c s = mid
  | RevealSellerPrice id' _ _ =>
      id' = id →
      ∃ v, let mid := put id (seller_shown v (sessionAt s id)) []
                        [PriceRevealed id (msg_sender env) v] ∅ s in
           if evaluates id env c s
           then checkDeal id mid = Ok tt (step env c s)
           else step env c s = mid
  | _ => evaluates id env c s = false
  end.
Proof.
  intros Hok.
  destruct (step_cases env c s) as [[Hf _] | (_ & _ & He)]; [congruence|].
  destruct He as [eb es bp sp pb ps hb hs id0 Ht0 _ _ _ _
                 |id0 es sp ps hs x _ _ _ _
                 |id0 clear proof v x _ _ _ _ _
                 |id0 clear proof v x _ _ _ _ _
                 |c Hc]; try done.
  - intros ->. exists v. cbv zeta. unfold evaluates.
    rewrite Hok, bool_decide_eq_true_2 by done. simpl. fold x.
    unfold after_reveal, deal_event, deal_checked.
    destruct (sellerRevealed x); [|done]. simpl.
    rewrite checkDeal_eq. cbv zeta. rewrite put_here.
    destruct (deal_holds (buyer_shown v x)); [|done].
    by rewrite put_put.
  - intros ->. exists v. cbv zeta. unfold evaluates.
    rewrite Hok, bool_decide_eq_true_2 by done. simpl. fold x.
    unfold after_reveal, deal_event, deal_checked.
    destruct (buyerRevealed x); [|done]. simpl.
    rewrite checkDeal_eq. cbv zeta. rewrite put_here.
    destruct (deal_holds (seller_shown v x)); [|done].
    by rewrite put_put.
  - by destruct c.
Qed.


End Monotone.



(** ** The order of the reveal checks (C3) *)

(** C3.  [revealBuyerPrice] fails with "Session does not exist" when the
    session is absent, whatever else holds; otherwise with "Only buyer can
    reveal" when the caller is not the session's buyer; otherwise with
    "Buyer already revealed" when [buyerRevealed] is set; otherwise with the
    revert of [FHE.checkSignatures] when the decryption proof fails.  When
    all four pass and the clear bytes decode to [v], the call commits:
    [publicBuyerPrice] is [v], [buyerRevealed] is true, and the events
    emitted start with [PriceRevealed(id, buyer, v)]; any later call of the
    buyer for the same session fails with "Buyer already revealed", writes
    nothing and emits nothing.  [revealSellerPrice] does the same with the
    seller's fields and messages.  Every failure leaves the state as it was. *)
Theorem C3_reveal_checks_in_order `{host : FHEHost} env id clear proof s :
  let x := sessionAt s id in
  (timestamp x = 0 →
     revealBuyerPrice env id clear proof s
     = Revert (Require_failed "Session does not exist") s) ∧
  (timestamp x ≠ 0 → msg_sender env ≠ buyer x →
     revealBuyerPrice env id clear proof s
     = Revert (Require_failed "Only buyer can reveal") s) ∧
  (timestamp x ≠ 0 → msg_sender env = buyer x → buyerRevealed x = true →
     revealBuyerPrice env id clear proof s
     = Revert (Require_failed "Buyer already revealed") s) ∧
  (timestamp x ≠ 0 → msg_sender env = buyer x → buyerRevealed x = false →
   checkSignatures [toBytes32 (encryptedBuyerPrice x)] clear proof = false →
     revealBuyerPrice env id clear proof s = Revert CheckSignatures_reverted s) ∧
  (timestamp x ≠ 0 → msg_sender env = buyer x → buyerRevealed x = false →
   checkSignatures [toBytes32 (encryptedBuyerPrice x)] clear proof = true →
   ∀ v, abi_decode_uint256 clear = Some v →
     ∃ s', revealBuyerPrice env id clear proof s = Ok tt s' ∧
       publicBuyerPrice (sessionAt s' id) = v ∧
       buyerRevealed (sessionAt s' id) = true ∧
       (∃ rest, events s' = events s ++ PriceRevealed id (buyer x) v :: rest) ∧
       ∀ env' clear' proof', msg_sender env' = buyer x →
         revealBuyerPrice env' id clear' proof' s'
         = Revert (Require_failed "Buyer already revealed") s' ∧
         step env' (RevealBuyerPrice id clear' proof') s' = s') ∧
  (timestamp x = 0 →
     revealSellerPrice env id clear proof s
     = Revert (Require_failed "Session does not exist") s) ∧
  (timestamp x ≠ 0 → msg_sender env ≠ seller x →
     revealSellerPrice env id clear proof s
     = Revert (Require_failed "Only seller can reveal") s) ∧
  (timestamp x ≠ 0 → msg_sender env = seller x → sellerRevealed x = true →
     revealSellerPrice env id clear proof s
     = Revert (Require_failed "Seller already revealed") s) ∧
  (timestamp x ≠ 0 → msg_sender env = seller x → sellerRevealed x = false →
   checkSignatures [toBytes32 (encryptedSellerPrice x)] clear proof = false →
     revealSellerPrice env id clear proof s = Revert CheckSignatures_reverted s) ∧
  (timestamp x ≠ 0 → msg_sender env = seller x → sellerRevealed x = false →
   checkSignatures [toBytes32 (encryptedSellerPrice x)] clear proof = true →
   ∀ v, abi_decode_uint256 clear = Some v →
     ∃ s', revealSellerPrice env id clear proof s = Ok tt s' ∧
       publicSellerPrice (sessionAt s' id) = v ∧
       sellerRevealed (sessionAt s' id) = true ∧
       (∃ rest, events s' = events s ++ PriceRevealed id (seller x) v :: rest) ∧
       ∀ env' clear' proof', msg_sender env' = seller x →
         revealSellerPrice env' id clear' proof' s'
         = Revert (Require_failed "Seller already revealed") s' ∧
         step env' (RevealSellerPrice id clear' proof') s' = s').
Proof.
  intros x.
  assert (∀ n, n = 0 → (0 <? n) = false) as Hz by (by intros n ->).
  assert (∀ n, n ≠ 0 → (0 <? n) = true) as Hnz.
  { intros n Hn. apply N.ltb_lt. by apply N.neq_0_lt_0. }
  repeat split.
  - intros Ht. rewrite revealBuyerPrice_eq. cbv zeta. fold x. by rewrite (Hz _ Ht).
  - intros Ht Hs. rewrite revealBuyerPrice_eq. cbv zeta. fold x.
    rewrite (Hnz _ Ht). by apply N.eqb_neq in Hs as ->.
  - intros Ht Hs Hb. rewrite revealBuyerPrice_eq. cbv zeta. fold x.
    rewrite (Hnz _ Ht), Hs, N.eqb_refl, Hb. done.
  - intros Ht Hs Hb Hc. rewrite revealBuyerPrice_eq. cbv zeta. fold x.
    rewrite (Hnz _ Ht), Hs, N.eqb_refl, Hb, Hc. done.
  - intros Ht Hs Hb Hc v Hv. rewrite revealBuyerPrice_eq. cbv zeta. fold x.
    rewrite (Hnz _ Ht), Hs, N.eqb_refl, Hb, Hc, Hv.
    eexists. split; [reflexivity|]. rewrite put_here.
    destruct (after_reveal_fields (sellerRevealed x) (buyer_shown v x))
      as (Hfb & _ & Hfp & _).
    assert (timestamp (after_reveal (sellerRevealed x) (buyer_shown v x)) ≠ 0) as Ht'
      by (by rewrite after_reveal_timestamp).
    assert (buyer (after_reveal (sellerRevealed x) (buyer_shown v x)) = buyer x) as Hbuy
      by (unfold after_reveal, deal_checked; by repeat case_match).
    split; [by rewrite Hfp|]. split; [by rewrite Hfb|]. split; [by eexists|].
    intros env' clear' proof' Hs'.
    assert (revealBuyerPrice env' id clear' proof'
              (put id (after_reveal (sellerRevealed x) (buyer_shown v x)) []
                 (PriceRevealed id (buyer x) v
                    :: deal_event id (sellerRevealed x) (buyer_shown v x)) ∅ s)
            = Revert (Require_failed "Buyer already revealed")
                (put id (after_reveal (sellerRevealed x) (buyer_shown v x)) []
                   (PriceRevealed id (buyer x) v
                      :: deal_event id (sellerRevealed x) (buyer_shown v x)) ∅ s)) as Hsecond.
    { rewrite revealBuyerPrice_eq. cbv zeta. rewrite put_here.
      rewrite (Hnz _ Ht'), Hbuy, Hs', N.eqb_refl, Hfb. done. }
    split; [exact Hsecond|].
    unfold step, transact, exec. by rewrite Hsecond.
  - intros Ht. rewrite revealSellerPrice_eq. cbv zeta. fold x. by rewrite (Hz _ Ht).
  - intros Ht Hs. rewrite revealSellerPrice_eq. cbv zeta. fold x.
    rewrite (Hnz _ Ht). by apply N.eqb_neq in Hs as ->.
  - intros Ht Hs Hb. rewrite revealSellerPrice_eq. cbv zeta. fold x.
    rewrite (Hnz _ Ht), Hs, N.eqb_refl, Hb. done.
  - intros Ht Hs Hb Hc. rewrite revealSellerPrice_eq. cbv zeta. fold x.
    rewrite (Hnz _ Ht), Hs, N.eqb_refl, Hb, Hc. done.
  - intros Ht Hs Hb Hc v Hv. rewrite revealSellerPrice_eq. cbv zeta. fold x.
    rewrite (Hnz _ Ht), Hs, N.eqb_refl, Hb, Hc, Hv.
    eexists. split; [reflexivity|]. rewrite put_here.
    destruct (after_reveal_fields (buyerRevealed x) (seller_shown v x))
      as (_ & Hfb & _ & Hfp & _).
    assert (timestamp (after_reveal (buyerRevealed x) (seller_shown v x)) ≠ 0) as Ht'
      by (by rewrite after_reveal_timestamp).
    assert (seller (after_reveal (buyerRevealed x) (seller_shown v x)) = seller x) as Hbuy
      by (unfold after_reveal, deal_checked; by repeat case_match).
    split; [by rewrite Hfp|]. split; [by rewrite Hfb|]. split; [by eexists|].
    intros env' clear' proof' Hs'.
    assert (revealSellerPrice env' id clear' proof'
              (put id (after_reveal (buyerRevealed x) (seller_shown v x)) []
                 (PriceRevealed id (seller x) v
                    :: deal_event id (buyerRevealed x) (seller_shown v x)) ∅ s)
            = Revert (Require_failed "Seller already revealed")
                (put id (after_reveal (buyerRevealed x) (seller_shown v x)) []
                   (PriceRevealed id (seller x) v
                      :: deal_event id (buyerRevealed x) (seller_shown v x)) ∅ s)) as Hsecond.
    { rewrite revealSellerPrice_eq. cbv zeta. rewrite put_here.
      rewrite (Hnz _ Ht'), Hbuy, Hs', N.eqb_refl, Hfb. done. }
    split; [exact Hsecond|].
    unfold step, transact, exec. by rewrite Hsecond.
Qed.


Lemma C3_witness :
  let s2 := run (host := demoHost) [demo_create; demo_join] init in
  let s3 := run (host := demoHost) [demo_create; demo_join; demo_buyer] init in
  let s4 := run (host := demoHost) [demo_create; demo_join; demo_seller] init in
  let w := abi_word x64 in
  revealBuyerPrice (host := demoHost) alice demo_id w ok_proof init
    = Revert (Require_failed "Session does not exist") init ∧
  revealBuyerPrice (host := demoHost) bob demo_id w ok_proof s2
    = Revert (Require_failed "Only buyer can reveal") s2 ∧
  revealBuyerPrice (host := demoHost) alice demo_id w ok_proof s3
    = Revert (Require_failed "Buyer already revealed") s3 ∧
  revealBuyerPrice (host := demoHost) alice demo_id w [] s2
    = Revert CheckSignatures_reverted s2 ∧
  (∃ s', revealBuyerPrice (host := demoHost) alice demo_id w ok_proof s2 = Ok tt s' ∧
         publicBuyerPrice (sessionAt s' demo_id) = 100 ∧
         revealBuyerPrice (host := demoHost) alice demo_id [] [] s'
           = Revert (Require_failed "Buyer already revealed") s') ∧
  revealSellerPrice (host := demoHost) bob demo_id w ok_proof init
    = Revert (Require_failed "Session does not exist") init ∧
  revealSellerPrice (host := demoHost) alice demo_id w ok_proof s2
    = Revert (Require_failed "Only seller can reveal") s2 ∧
  revealSellerPrice (host := demoHost) bob demo_id w ok_proof s4
    = Revert (Require_failed "Seller already revealed") s4 ∧
  revealSellerPrice (host := demoHost) bob demo_id w [] s2
    = Revert CheckSignatures_reverted s2 ∧
  (∃ s', revealSellerPrice (host := demoHost) bob demo_id w ok_proof s2 = Ok tt s' ∧
         publicSellerPrice (sessionAt s' demo_id) = 100 ∧
         revealSellerPrice (host := demoHost) bob demo_id [] [] s'
           = Revert (Require_failed "Seller already revealed") s').
Proof.
  intros s2 s3 s4 w.
  pose proof (λ env proof s,
    C3_reveal_checks_in_order (host := demoHost) env demo_id w proof s) as C.
  cbv zeta in C.
  split; [by apply (C alice ok_proof init)|].
  split; [apply (C bob ok_proof s2); by_running|].
  split; [apply (C alice ok_proof s3); by_running|].
  split; [apply (C alice [] s2); by_running|].
  split.
  { destruct (C alice ok_proof s2) as (_ & _ & _ & _ & Hok & _).
    destruct (Hok ltac:(by_running) ltac:(by_running) ltac:(by_running) ltac:(by_running)
                100 ltac:(by_running)) as (s' & Hs' & Hp & _ & _ & Hagain).
    exists s'. split; [exact Hs'|]. split; [exact Hp|].
    apply (Hagain alice [] []). by_running. }
  split; [by apply (C bob ok_proof init)|].
  split; [apply (C alice ok_proof s2); by_running|].
  split; [apply (C bob ok_proof s4); by_running|].
  split; [apply (C bob [] s2); by_running|].
  destruct (C bob ok_proof s2) as (_ & _ & _ & _ & _ & _ & _ & _ & _ & Hok).
  destruct (Hok ltac:(by_running) ltac:(by_running) ltac:(by_running) ltac:(by_running)
              100 ltac:(by_running)) as (s' & Hs' & Hp & _ & _ & Hagain).
  exists s'. split; [exact Hs'|]. split; [exact Hp|].
  apply (Hagain bob [] []). by_running.
Defined.

(** ** Failures write nothing (C4) *)

(** C4.  When a call of [createSession], [joinSession], [revealBuyerPrice]
    or [revealSellerPrice] (or of a view) reverts, the function body had
    written nothing by the time it reverted, and the transaction leaves the
    session table, the list of session ids and the event log as they were.
    In particular [createSession] called when the derived id already names
    a session (nonzero timestamp) reverts with "Session already exists"
    with nothing written: the stored session and the id list are untouched. *)
Theorem C4_failure_changes_nothing `{host : FHEHost} env c s :
  (∀ e s0, exec env c s = Revert e s0 →
     s0 = s ∧
     sessions (step env c s) = sessions s ∧
     sessionIds (step env c s) = sessionIds s ∧
     events (step env c s) = events s) ∧
  (∀ eb es bp sp pb ps,
     let id := keccak256_packed (msg_sender env) (block_timestamp env) in
     timestamp (sessionAt s id) ≠ 0 →
     createSession env eb es bp sp pb ps s
       = Revert (Require_failed "Session already exists") s ∧
     sessionAt (step env (CreateSession eb es bp sp pb ps) s) id = sessionAt s id ∧
     sessionIds (step env (CreateSession eb es bp sp pb ps) s) = sessionIds s ∧
     events (step env (CreateSession eb es bp sp pb ps) s) = events s).
Proof.
  split.
  - intros e s0 Hx. split; [by eapply exec_revert|].
    unfold step, transact. by rewrite Hx.
  - intros eb es bp sp pb ps id Ht.
    assert (createSession env eb es bp sp pb ps s
            = Revert (Require_failed "Session already exists") s) as Hx.
    { rewrite createSession_eq. cbv zeta. fold id.
      by apply N.eqb_neq in Ht as ->. }
    split; [exact Hx|].
    unfold step, transact, exec, mbind, M_bind, bind. by rewrite Hx.
Qed.

Lemma C4_witness :
  let s1 := run (host := demoHost) [demo_create] init in
  exec (host := demoHost) alice demo_create.2 s1
    = Revert (Require_failed "Session already exists") s1 ∧
  timestamp (sessionAt s1 demo_id) ≠ 0 ∧
  sessions (step (host := demoHost) alice demo_create.2 s1) = sessions s1 ∧
  sessionIds (step (host := demoHost) alice demo_create.2 s1) = [demo_id] ∧
  createSession (host := demoHost) alice 1 2 ok_proof ok_proof 3 4 s1
    = Revert (Require_failed "Session already exists") s1.
Proof.
  intros s1.
  destruct (C4_failure_changes_nothing (host := demoHost) alice demo_create.2 s1)
    as [Hfail Hdup].
  assert (exec (host := demoHost) alice demo_create.2 s1
          = Revert (Require_failed "Session already exists") s1) as Hx by by_running.
  assert (timestamp (sessionAt s1 demo_id) ≠ 0) as Ht by by_running.
  destruct (Hfail _ _ Hx) as (_ & Hs & Hids & _).
  split; [exact Hx|]. split; [exact Ht|]. split; [exact Hs|].
  split; [etrans; [exact Hids|]; by_running|].
  apply (Hdup 1 2 ok_proof ok_proof 3 4). exact Ht.
Defined.

(** ** What create validates (C5) *)

(** C5, as the specification states it, fails: with a fresh derived id and
    a buyer handle that passes the validity check, [createSession] still
    reverts with an invalid-encryption message, because the seller handle
    it was given does not pass. *)
Lemma C5_counterexample :
  timestamp (sessionAt init (keccak256_packed (FHEHost := demoHost) 10 1000)) = 0 ∧
  fromExternal (FHEHost := demoHost) 10 7 ok_proof = Some 7 ∧
  isInitialized (FHEHost := demoHost) 7 = true ∧
  createSession (host := demoHost) alice 7 0 ok_proof ok_proof 90 95 init
    = Revert (Require_failed "Invalid seller encryption") init.
Proof. repeat split. Qed.

(** C5, amended.  [createSession] takes a buyer handle and a seller handle,
    each with its input proof, and ingests both.  For a fresh derived id and
    two ingestions that return handles, it reverts with an
    invalid-encryption message exactly when the buyer handle or the seller
    handle fails [FHE.isInitialized]; the buyer's is checked first.
    Otherwise it commits and stores both handles. *)
Theorem C5_create_validates_both_handles `{host : FHEHost}
    env eb es bp sp pb ps s hb hs :
  let id := keccak256_packed (msg_sender env) (block_timestamp env) in
  let r := createSession env eb es bp sp pb ps s in
  timestamp (sessionAt s id) = 0 →
  fromExternal (msg_sender env) eb bp = Some hb →
  fromExternal (msg_sender env) es sp = Some hs →
  (r = Revert (Require_failed "Invalid buyer encryption") s ↔ isInitialized hb = false) ∧
  (r = Revert (Require_failed "Invalid seller encryption") s ↔
     isInitialized hb = true ∧ isInitialized hs = false) ∧
  ((∃ e s0, r = Revert e s0) ↔ isInitialized hb = false ∨ isInitialized hs = false) ∧
  (isInitialized hb = true → isInitialized hs = true →
     ∃ s', r = Ok id s' ∧
       encryptedBuyerPrice (sessionAt s' id) = hb ∧
       encryptedSellerPrice (sessionAt s' id) = hs).
Proof.
  intros id r Ht Hb Hs. subst r. rewrite createSession_eq. cbv zeta. fold id.
  rewrite Ht, Hb, Hs. simpl.
  destruct (isInitialized hb), (isInitialized hs); repeat split;
    solve [ intros; done
          | intros; congruence
          | intros [? ?]; congruence
          | intros (? & ? & ?); congruence
          | intros [? | ?]; congruence
          | intros; eauto
          | intros; eexists; split; [reflexivity | by rewrite put_here] ].
Qed.

Lemma C5_witness :
  timestamp (sessionAt init demo_id) = 0 ∧
  fromExternal (FHEHost := demoHost) 10 7 ok_proof = Some 7 ∧
  fromExternal (FHEHost := demoHost) 10 0 ok_proof = Some 0 ∧
  createSession (host := demoHost) alice 7 0 ok_proof ok_proof 90 95 init
    = Revert (Require_failed "Invalid seller encryption") init ∧
  ∃ s', createSession (host := demoHost) alice 7 8 ok_proof ok_proof 90 95 init
        = Ok demo_id s' ∧ encryptedSellerPrice (sessionAt s' demo_id) = 8.
Proof.
  assert (timestamp (sessionAt init demo_id) = 0) as Ht by by_running.
  assert (fromExternal (FHEHost := demoHost) 10 7 ok_proof = Some 7) as Hb by by_running.
  assert (fromExternal (FHEHost := demoHost) 10 0 ok_proof = Some 0) as Hs0 by by_running.
  assert (fromExternal (FHEHost := demoHost) 10 8 ok_proof = Some 8) as Hs8 by by_running.
  split; [exact Ht|]. split; [exact Hb|]. split; [exact Hs0|]. split.
  - apply (C5_create_validates_both_handles (host := demoHost)
             alice 7 0 ok_proof ok_proof 90 95 init 7 0 Ht Hb Hs0).
    split; by_running.
  - destruct (C5_create_validates_both_handles (host := demoHost)
                alice 7 8 ok_proof ok_proof 90 95 init 7 8 Ht Hb Hs8)
      as (_ & _ & _ & Hok).
    destruct (Hok ltac:(by_running) ltac:(by_running)) as (s' & Hs' & _ & He).
    exists s'. split; [exact Hs' | exact He].
Defined.

(** ** Joining (C6) *)

Section Join.
Context `{host : FHEHost}.


End Join.



(** ** The creation-order log (C7) *)

Section CreationLog.
Context `{host : FHEHost}.

Lemma step_sessionIds env c s :
  sessionIds (step env c s) = sessionIds s ++ pushed env c s.
Proof.
  unfold pushed.
  destruct (step_cases env c s) as [[Hf ->] | (Hok & _ & He)].
  - rewrite Hf. destruct c; by rewrite app_nil_r.
  - rewrite Hok. destruct He; simpl; try done.
    destruct c; try done; by rewrite app_nil_r.
Qed.

Lemma run_sessionIds cs s :
  sessionIds (run cs s) = sessionIds s ++ created_ids cs s.
Proof.
  revert s. induction cs as [|[env c] cs IH]; intros s; simpl.
  - by rewrite app_nil_r.
  - rewrite IH, step_sessionIds, <- app_assoc. done.
Qed.

End CreationLog.

(** C7.  After any sequence of calls from the initial state,
    [getAllSessionIds] returns the list of the ids for which
    [createSession] committed, in the order of the commits.  The list has no
    duplicates, an id is in it exactly when its session exists (nonzero
    timestamp), and its length is the number of committed creates. *)
Theorem C7_log_is_the_created_sessions `{host : FHEHost} cs :
  Forall (λ ec : Env * Call, valid_env ec.1) cs →
  let s := run cs init in
  getAllSessionIds s = Ok (sessionIds s) s ∧
  sessionIds s = created_ids cs init ∧
  NoDup (sessionIds s) ∧
  (∀ id, id ∈ sessionIds s ↔ timestamp (sessionAt s id) ≠ 0) ∧
  length (sessionIds s) = length (created_ids cs init).
Proof.
  intros Hall s.
  assert (Inv s) as HI.
  { apply Reachable_Inv. apply run_Reachable; [apply Reachable_init | done]. }
  assert (sessionIds s = created_ids cs init) as Hids.
  { subst s. by rewrite run_sessionIds. }
  split; [done|]. split; [exact Hids|]. split; [apply (inv_nodup _ HI)|].
  split; [apply (inv_ids _ HI)|]. by rewrite Hids.
Qed.

Lemma C7_witness :
  let cs := [demo_create; demo_join; demo_create; demo_buyer;
             (bob, CreateSession 3 4 ok_proof ok_proof 1 2); demo_seller] in
  Forall (λ ec : Env * Call, valid_env ec.1) cs ∧
  sessionIds (run (host := demoHost) cs init) = [demo_id; 47244641257] ∧
  created_ids (host := demoHost) cs init = [demo_id; 47244641257] ∧
  NoDup (sessionIds (run (host := demoHost) cs init)).
Proof.
  intros cs.
  assert (Forall (λ ec : Env * Call, valid_env ec.1) cs) as Hall
    by (repeat constructor; done).
  destruct (C7_log_is_the_created_sessions (host := demoHost) cs Hall)
    as (_ & Hids & Hnd & _).
  split; [exact Hall|]. split; [etrans; [exact Hids|]; by_running|].
  split; [by_running | exact Hnd].
Defined.

(** ** Order of the two reveals (C8) *)

Section RevealOrder.
Context `{host : FHEHost}.

Lemma step_ok env c s s' :
  exec env c s = Ok tt s' → step env c s = s' ∧ succeeds env c s = true.
Proof. intros Hx. unfold step, succeeds, transact. by rewrite Hx. Qed.

Lemma reveal_buyer_ok env id clear proof v s :
  let x := sessionAt s id in
  timestamp x ≠ 0 → msg_sender env = buyer x → buyerRevealed x = false →
  checkSignatures [toBytes32 (encryptedBuyerPrice x)] clear proof = true →
  abi_decode_uint256 clear = Some v →
  exec env (RevealBuyerPrice id clear proof) s =
  Ok tt (put id (after_reveal (sellerRevealed x) (buyer_shown v x)) []
           (PriceRevealed id (buyer x) v
              :: deal_event id (sellerRevealed x) (buyer_shown v x)) ∅ s).
Proof.
  intros x Ht Hs Hb Hc Hv. simpl. rewrite revealBuyerPrice_eq. cbv zeta. fold x.
  apply N.neq_0_lt_0, N.ltb_lt in Ht. by rewrite Ht, Hs, N.eqb_refl, Hb, Hc, Hv.
Qed.

Lemma reveal_seller_ok env id clear proof v s :
  let x := sessionAt s id in
  timestamp x ≠ 0 → msg_sender env = seller x → sellerRevealed x = false →
  checkSignatures [toBytes32 (encryptedSellerPrice x)] clear proof = true →
  abi_decode_uint256 clear = Some v →
  exec env (RevealSellerPrice id clear proof) s =
  Ok tt (put id (after_reveal (buyerRevealed x) (seller_shown v x)) []
           (PriceRevealed id (seller x) v
              :: deal_event id (buyerRevealed x) (seller_shown v x)) ∅ s).
Proof.
  intros x Ht Hs Hb Hc Hv. simpl. rewrite revealSellerPrice_eq. cbv zeta. fold x.
  apply N.neq_0_lt_0, N.ltb_lt in Ht. by rewrite Ht, Hs, N.eqb_refl, Hb, Hc, Hv.
Qed.

End RevealOrder.

(** C8.  Take a session in which neither side has revealed, a buyer call and
    a seller call whose decryption proofs verify against the stored handles
    and whose clear bytes decode to [vb] and [vs].  Both calls commit in
    either order.  The two orders end with the same session table, hence the
    same [dealMatched], which is true when [vs <= vb] (or was already true);
    and each order emits the two reveal events followed by
    [DealMatched(id, vs)] when [vs <= vb] and by nothing otherwise. *)
Theorem C8_reveal_order_independent `{host : FHEHost}
    envB envS id clearB proofB clearS proofS vb vs s :
  let x := sessionAt s id in
  let rb := RevealBuyerPrice id clearB proofB in
  let rs := RevealSellerPrice id clearS proofS in
  timestamp x ≠ 0 → msg_sender envB = buyer x → msg_sender envS = seller x →
  buyerRevealed x = false → sellerRevealed x = false →
  checkSignatures [toBytes32 (encryptedBuyerPrice x)] clearB proofB = true →
  checkSignatures [toBytes32 (encryptedSellerPrice x)] clearS proofS = true →
  abi_decode_uint256 clearB = Some vb → abi_decode_uint256 clearS = Some vs →
  let s1 := run [(envB, rb); (envS, rs)] s in
  let s2 := run [(envS, rs); (envB, rb)] s in
  succeeds envB rb s = true ∧ succeeds envS rs (step envB rb s) = true ∧
  succeeds envS rs s = true ∧ succeeds envB rb (step envS rs s) = true ∧
  sessions s1 = sessions s2 ∧
  dealMatched (sessionAt s1 id) = dealMatched x || (vs <=? vb) ∧
  dealMatched (sessionAt s2 id) = dealMatched x || (vs <=? vb) ∧
  events s1 = events s
    ++ [PriceRevealed id (buyer x) vb; PriceRevealed id (seller x) vs]
    ++ (if vs <=? vb then [DealMatched id vs] else []) ∧
  events s2 = events s
    ++ [PriceRevealed id (seller x) vs; PriceRevealed id (buyer x) vb]
    ++ (if vs <=? vb then [DealMatched id vs] else []).
Proof.
  intros x rb rs Ht HsB HsS Hb Hs HcB HcS HvB HvS s1 s2.
  (* buyer first *)
  pose proof (reveal_buyer_ok envB id clearB proofB vb s Ht HsB Hb HcB HvB) as Hb1.
  fold x in Hb1. rewrite Hs in Hb1. simpl in Hb1.
  destruct (step_ok envB rb s _ Hb1) as [Hstep_b1 Hok_b1].
  pose proof (reveal_seller_ok envS id clearS proofS vs (step envB rb s)) as Hs1.
  cbv zeta in Hs1. rewrite Hstep_b1, put_here in Hs1.
  specialize (Hs1 Ht HsS Hs HcS HvS). simpl in Hs1.
  destruct (step_ok envS rs _ _ Hs1) as [Hstep_s1 Hok_s1].
  (* seller first *)
  pose proof (reveal_seller_ok envS id clearS proofS vs s Ht HsS Hs HcS HvS) as Hs2.
  fold x in Hs2. rewrite Hb in Hs2. simpl in Hs2.
  destruct (step_ok envS rs s _ Hs2) as [Hstep_s2 Hok_s2].
  pose proof (reveal_buyer_ok envB id clearB proofB vb (step envS rs s)) as Hb2.
  cbv zeta in Hb2. rewrite Hstep_s2, put_here in Hb2.
  specialize (Hb2 Ht HsB Hb HcB HvB). simpl in Hb2.
  destruct (step_ok envB rb _ _ Hb2) as [Hstep_b2 Hok_b2].
  subst s1 s2. simpl.
  rewrite Hstep_b1, Hstep_s1, Hstep_s2, Hstep_b2.
  do 4 (split; [done|]).
  rewrite !put_here. unfold put, deal_event, deal_checked, deal_holds. simpl.
  rewrite !insert_insert_eq, <- !app_assoc. simpl.
  destruct (vs <=? vb); rewrite ?orb_true_r, ?orb_false_r; done.
Qed.

Lemma C8_witness :
  let s := run (host := demoHost) [demo_create; demo_join] init in
  let s1 := run (host := demoHost) [demo_buyer; demo_seller] s in
  let s2 := run (host := demoHost) [demo_seller; demo_buyer] s in
  timestamp (sessionAt s demo_id) ≠ 0 ∧
  buyerRevealed (sessionAt s demo_id) = false ∧
  sellerRevealed (sessionAt s demo_id) = false ∧
  abi_decode_uint256 (abi_word x64) = Some 100 ∧
  abi_decode_uint256 (abi_word x50) = Some 80 ∧
  sessions s1 = sessions s2 ∧
  dealMatched (sessionAt s1 demo_id) = true ∧
  dealMatched (sessionAt s2 demo_id) = true ∧
  deal_events demo_id (events s1) = [80] ∧
  deal_events demo_id (events s2) = [80].
Proof.
  intros s s1 s2.
  assert (timestamp (sessionAt s demo_id) ≠ 0) as Ht by by_running.
  assert (buyerRevealed (sessionAt s demo_id) = false) as Hb by by_running.
  assert (sellerRevealed (sessionAt s demo_id) = false) as Hs by by_running.
  assert (abi_decode_uint256 (abi_word x64) = Some 100) as HvB by by_running.
  assert (abi_decode_uint256 (abi_word x50) = Some 80) as HvS by by_running.
  destruct (C8_reveal_order_independent (host := demoHost)
              alice bob demo_id (abi_word x64) ok_proof (abi_word x50) ok_proof 100 80 s
              Ht ltac:(by_running) ltac:(by_running) Hb Hs
              ltac:(by_running) ltac:(by_running) HvB HvS)
    as (_ & _ & _ & _ & Heq & Hd1 & Hd2 & He1 & He2).
  split; [exact Ht|]. split; [exact Hb|]. split; [exact Hs|].
  split; [exact HvB|]. split; [exact HvS|]. split; [exact Heq|].
  split; [etrans; [exact Hd1|]; by_running|].
  split; [etrans; [exact Hd2|]; by_running|].
  split.
  - etrans; [exact (f_equal (deal_events demo_id) He1)|]. by_running.
  - etrans; [exact (f_equal (deal_events demo_id) He2)|]. by_running.
Defined.

(** ** No seller reveal before join (C9) *)

(** C9.  In every reachable state a session whose [sellerRevealed] is true
    has a seller other than the zero address, that is, it has been joined.
    For an existing session that nobody has joined, [revealSellerPrice]
    called by anyone but the zero address reverts with "Only seller can
    reveal", whatever the clear value and the proof. *)
Theorem C9_seller_reveals_only_after_join `{host : FHEHost} s id env clear proof :
  let x := sessionAt s id in
  (Reachable s → sellerRevealed x = true → seller x ≠ 0) ∧
  (timestamp x ≠ 0 → seller x = 0 → msg_sender env ≠ 0 →
     revealSellerPrice env id clear proof s
     = Revert (Require_failed "Only seller can reveal") s).
Proof.
  intros x. split.
  - intros Hr. apply (inv_session _ (Reachable_Inv _ Hr) id).
  - intros Ht Hsel Hsender. rewrite revealSellerPrice_eq. cbv zeta. fold x.
    apply N.neq_0_lt_0, N.ltb_lt in Ht. rewrite Ht, Hsel.
    by apply N.eqb_neq in Hsender as ->.
Qed.

Lemma C9_witness :
  let s1 := run (host := demoHost) [demo_create] init in
  let s3 := run (host := demoHost) [demo_create; demo_join; demo_seller] init in
  Reachable (host := demoHost) s3 ∧
  sellerRevealed (sessionAt s3 demo_id) = true ∧
  seller (sessionAt s3 demo_id) ≠ 0 ∧
  seller (sessionAt s1 demo_id) = 0 ∧
  revealSellerPrice (host := demoHost) bob demo_id (abi_word x50) ok_proof s1
    = Revert (Require_failed "Only seller can reveal") s1.
Proof.
  intros s1 s3.
  assert (Reachable (host := demoHost) s3) as Hr.
  { apply run_Reachable; [apply Reachable_init|]. repeat constructor; done. }
  assert (sellerRevealed (sessionAt s3 demo_id) = true) as Hs by by_running.
  assert (seller (sessionAt s1 demo_id) = 0) as Hz by by_running.
  split; [exact Hr|]. split; [exact Hs|]. split.
  - exact (proj1 (C9_seller_reveals_only_after_join (host := demoHost)
                    s3 demo_id bob [] []) Hr Hs).
  - split; [exact Hz|].
    apply (C9_seller_reveals_only_after_join (host := demoHost)
             s1 demo_id bob (abi_word x50) ok_proof); [by_running | exact Hz | by_running].
Defined.

(** ** What join overwrites (C10) *)

(** C10.  A committed [createSession] stores the ingested creator-supplied
    seller handle and the creator's provisional seller price in the new
    session, with no seller bound.  A committed [joinSession] replaces
    [seller], [encryptedSellerPrice] and [publicSellerPrice] of the session
    by the caller, the ingested handle and the price given, whatever they
    held, and leaves the other seven fields, every other session and the id
    list as they were. *)
Theorem C10_join_overwrites_seller_fields `{host : FHEHost} :
  (∀ env eb es bp sp pb ps s id s',
     createSession env eb es bp sp pb ps s = Ok id s' →
     ∃ hs, fromExternal (msg_sender env) es sp = Some hs ∧
       seller (sessionAt s' id) = 0 ∧
       encryptedSellerPrice (sessionAt s' id) = hs ∧
       publicSellerPrice (sessionAt s' id) = ps) ∧
  (∀ env id es sp ps s s',
     joinSession env id es sp ps s = Ok tt s' →
     let x := sessionAt s id in
     let x' := sessionAt s' id in
     ∃ hs, fromExternal (msg_sender env) es sp = Some hs ∧
       seller x' = msg_sender env ∧
       encryptedSellerPrice x' = hs ∧
       publicSellerPrice x' = ps ∧
       buyer x' = buyer x ∧
       encryptedBuyerPrice x' = encryptedBuyerPrice x ∧
       publicBuyerPrice x' = publicBuyerPrice x ∧
       buyerRevealed x' = buyerRevealed x ∧
       sellerRevealed x' = sellerRevealed x ∧
       dealMatched x' = dealMatched x ∧
       timestamp x' = timestamp x ∧
       (∀ id', id' ≠ id → sessionAt s' id' = sessionAt s id') ∧
       sessionIds s' = sessionIds s).
Proof.
  split.
  - intros env eb es bp sp pb ps s id s'. rewrite createSession_eq. cbv zeta.
    destruct (timestamp _ =? 0); [|done].
    destruct (fromExternal _ eb bp) as [hb|]; [|done].
    destruct (fromExternal _ es sp) as [hs|]; [|done].
    destruct (isInitialized hb); [|done].
    destruct (isInitialized hs); [|done].
    intros [= <- <-]. exists hs. by rewrite put_here.
  - intros env id es sp ps s s'. rewrite joinSession_eq. cbv zeta.
    destruct (0 <? _); [|done].
    destruct (seller _ =? 0); [|done].
    destruct (fromExternal _ es sp) as [hs|]; [|done].
    destruct (isInitialized hs); [|done].
    intros [= <-]. exists hs. rewrite put_here.
    do 11 (split; [done|]). split.
    + intros id' Hne. by apply put_other.
    + simpl. by rewrite app_nil_r.
Qed.

Lemma C10_witness :
  let s1 := run (host := demoHost) [demo_create] init in
  let s2 := run (host := demoHost) [demo_create; demo_join] init in
  createSession (host := demoHost) alice 7 8 ok_proof ok_proof 90 95 init = Ok demo_id s1 ∧
  encryptedSellerPrice (sessionAt s1 demo_id) = 8 ∧
  publicSellerPrice (sessionAt s1 demo_id) = 95 ∧
  joinSession (host := demoHost) bob demo_id 9 ok_proof 85 s1 = Ok tt s2 ∧
  seller (sessionAt s2 demo_id) = 11 ∧
  encryptedSellerPrice (sessionAt s2 demo_id) = 9 ∧
  publicSellerPrice (sessionAt s2 demo_id) = 85 ∧
  buyer (sessionAt s2 demo_id) = buyer (sessionAt s1 demo_id) ∧
  timestamp (sessionAt s2 demo_id) = timestamp (sessionAt s1 demo_id).
Proof.
  intros s1 s2.
  destruct (C10_join_overwrites_seller_fields (host := demoHost)) as [Hc Hj].
  assert (createSession (host := demoHost) alice 7 8 ok_proof ok_proof 90 95 init
          = Ok demo_id s1) as Hx1 by by_running.
  assert (joinSession (host := demoHost) bob demo_id 9 ok_proof 85 s1 = Ok tt s2)
    as Hx2 by by_running.
  destruct (Hc _ _ _ _ _ _ _ _ _ _ Hx1) as (hs1 & Hf1 & _ & He1 & Hp1).
  destruct (Hj _ _ _ _ _ _ _ Hx2)
    as (hs2 & Hf2 & Hsel & He2 & Hp2 & Hbuy & _ & _ & _ & _ & _ & Hts & _).
  split; [exact Hx1|].
  split; [etrans; [exact He1|]; vm_compute in Hf1; congruence|].
  split; [exact Hp1|]. split; [exact Hx2|]. split; [exact Hsel|].
  split; [etrans; [exact He2|]; vm_compute in Hf2; congruence|].
  split; [exact Hp2|]. split; [exact Hbuy | exact Hts].
Defined.

(** * Further properties of the contract *)

(** ** Reading back what is stored *)

Section Views.
Context `{host : FHEHost}.

Lemma getSession_eq id s :
  getSession id s =
  if 0 <? timestamp (sessionAt s id) then Ok (session_view (sessionAt s id)) s
  else Revert (Require_failed "Session does not exist") s.
Proof. unfold getSession, session_view. unfold_sol. by destruct (0 <? _). Qed.

Lemma getEncryptedPrices_eq id s :
  getEncryptedPrices id s =
  if 0 <? timestamp (sessionAt s id)
  then Ok (encryptedBuyerPrice (sessionAt s id), encryptedSellerPrice (sessionAt s id)) s
  else Revert (Require_failed "Session does not exist") s.
Proof. unfold getEncryptedPrices. unfold_sol. by destruct (0 <? _). Qed.

Lemma listed_exists s id :
  Inv s → id ∈ sessionIds s → (0 <? timestamp (sessionAt s id)) = true.
Proof.
  intros HI Hin. apply (inv_ids _ HI) in Hin. by apply N.ltb_lt, N.neq_0_lt_0.
Qed.

End Views.

(** X1.  In a reachable state the ids [getAllSessionIds] returns are exactly
    the ids the two checked views accept: for a listed id [getSession]
    returns the eight stored fields and [getEncryptedPrices] the two stored
    handles, for any other id both revert with "Session does not exist";
    neither view writes. *)
Theorem listed_sessions_are_readable `{host : FHEHost} s id :
  Reachable s →
  (id ∈ sessionIds s →
     getSession id s = Ok (session_view (sessionAt s id)) s ∧
     getEncryptedPrices id s
     = Ok (encryptedBuyerPrice (sessionAt s id), encryptedSellerPrice (sessionAt s id)) s) ∧
  (id ∉ sessionIds s →
     getSession id s = Revert (Require_failed "Session does not exist") s ∧
     getEncryptedPrices id s = Revert (Require_failed "Session does not exist") s).
Proof.
  intros Hr. pose proof (inv_ids _ (Reachable_Inv _ Hr) id) as Hids.
  rewrite getSession_eq, getEncryptedPrices_eq. split; intros Hin.
  - by rewrite (listed_exists s id (Reachable_Inv _ Hr) Hin).
  - assert (timestamp (sessionAt s id) = 0) as ->; [|done].
    destruct (N.eq_dec (timestamp (sessionAt s id)) 0) as [|Hne]; [done|].
    by apply Hids in Hne.
Qed.

Lemma listed_sessions_are_readable_witness :
  let s := run (host := demoHost) [demo_create; demo_join] init in
  Reachable (host := demoHost) s ∧
  (demo_id ∈ sessionIds s) ∧
  getSession demo_id s
    = Ok (10, 11, 90, 85, false, false, false, 1000) s ∧
  (7 ∉ sessionIds s) ∧
  getSession 7 s = Revert (Require_failed "Session does not exist") s.
Proof.
  intros s.
  assert (Reachable (host := demoHost) s) as Hr.
  { apply run_Reachable; [apply Reachable_init|]. repeat constructor; done. }
  assert (demo_id ∈ sessionIds s) as Hin by (vm_compute; apply list_elem_of_here).
  assert (7 ∉ sessionIds s) as Hnin.
  { vm_compute. intros Hx. apply list_elem_of_singleton in Hx. discriminate. }
  split; [exact Hr|]. split; [exact Hin|]. split.
  - destruct (listed_sessions_are_readable (host := demoHost) s demo_id Hr) as [Hyes _].
    destruct (Hyes Hin) as [Hget _]. etrans; [exact Hget|]. by_running.
  - split; [exact Hnin|].
    destruct (listed_sessions_are_readable (host := demoHost) s 7 Hr) as [_ Hno].
    exact (proj1 (Hno Hnin)).
Defined.

(** ** Nothing is ever removed *)

Section Growth.
Context `{host : FHEHost}.

Lemma step_grows env c s :
  ∃ ids evs hs,
    sessionIds (step env c s) = sessionIds s ++ ids ∧
    events (step env c s) = events s ++ evs ∧
    allowed (step env c s) = hs ∪ allowed s.
Proof.
  destruct (step_cases env c s) as [[_ ->] | (_ & _ & He)].
  - exists [], [], ∅. rewrite !app_nil_r. by rewrite (left_id_L ∅ (∪)).
  - destruct He; try (by eexists _, _, _).
    exists [], [], ∅. rewrite !app_nil_r. by rewrite (left_id_L ∅ (∪)).
Qed.

Lemma run_grows cs s :
  sessionIds s `prefix_of` sessionIds (run cs s) ∧
  events s `prefix_of` events (run cs s) ∧
  allowed s ⊆ allowed (run cs s).
Proof.
  revert s. induction cs as [|[env c] cs IH]; intros s; simpl; [done|].
  destruct (IH (step env c s)) as (Hi & He & Ha).
  destruct (step_grows env c s) as (ids & evs & hs & Hi' & He' & Ha').
  split; [|split].
  - etrans; [|exact Hi]. rewrite Hi'. by apply prefix_app_r.
  - etrans; [|exact He]. rewrite He'. by apply prefix_app_r.
  - etrans; [|exact Ha]. rewrite Ha'. apply union_subseteq_r.
Qed.

End Growth.

(** X11.  No sequence of calls removes or reorders anything: the id list
    and the event log after a run extend the ones before it, and the set of
    handles the contract has allowed itself only grows. *)
Theorem logs_are_append_only `{host : FHEHost} cs s :
  (∃ ids, sessionIds (run cs s) = sessionIds s ++ ids) ∧
  (∃ evs, events (run cs s) = events s ++ evs) ∧
  allowed s ⊆ allowed (run cs s).
Proof. apply run_grows. Qed.

(** X2.  The generated getter [sessionIds(i)] panics exactly when [i] is
    not below the length of the list [getAllSessionIds] returns.  In a
    reachable state an id it returns names a session [getSession] accepts,
    no two indices return the same id, and after any further calls the same
    index still returns the same id. *)
Theorem sessionIds_getter_in_bounds `{host : FHEHost} s i j id cs :
  Reachable s →
  (sessionIds_at i s = None ↔ (length (sessionIds s) ≤ N.to_nat i)%nat) ∧
  (sessionIds_at i s = Some id →
     getSession id s = Ok (session_view (sessionAt s id)) s ∧
     (sessionIds_at j s = Some id → i = j) ∧
     sessionIds_at i (run cs s) = Some id).
Proof.
  intros Hr. unfold sessionIds_at. split; [apply lookup_ge_None|].
  intros Hi. split; [|split].
  - rewrite getSession_eq.
    rewrite (listed_exists s id (Reachable_Inv _ Hr)); [done|].
    by eapply list_elem_of_lookup_2.
  - intros Hj. apply N2Nat.inj.
    by eapply (NoDup_lookup _ _ _ _ (inv_nodup _ (Reachable_Inv _ Hr))).
  - destruct (run_grows cs s) as ([ids ->] & _). by apply lookup_app_l_Some.
Qed.

Lemma sessionIds_getter_in_bounds_witness :
  let s := run (host := demoHost)
             [demo_create; demo_join; (bob, CreateSession 3 4 ok_proof ok_proof 1 2)] init in
  Reachable (host := demoHost) s ∧
  sessionIds_at 1 s = Some 47244641257 ∧
  sessionIds_at 2 s = None ∧
  sessionIds_at 1 (run (host := demoHost) [demo_buyer; demo_seller] s) = Some 47244641257.
Proof.
  intros s.
  assert (Reachable (host := demoHost) s) as Hr.
  { apply run_Reachable; [apply Reachable_init|]. repeat constructor; done. }
  assert (sessionIds_at 1 s = Some 47244641257) as Hi by by_running.
  destruct (sessionIds_getter_in_bounds (host := demoHost)
              s 1 1 47244641257 [demo_buyer; demo_seller] Hr) as [_ Hsome].
  destruct (sessionIds_getter_in_bounds (host := demoHost)
              s 2 2 0 [] Hr) as [Hnone _].
  split; [exact Hr|]. split; [exact Hi|]. split.
  - apply Hnone. vm_compute. lia.
  - apply (Hsome Hi).
Defined.

(** ** What no call changes *)

Section Frames.
Context `{host : FHEHost}.

Lemma after_reveal_frame other x :
  buyer (after_reveal other x) = buyer x ∧
  seller (after_reveal other x) = seller x ∧
  encryptedBuyerPrice (after_reveal other x) = encryptedBuyerPrice x ∧
  encryptedSellerPrice (after_reveal other x) = encryptedSellerPrice x.
Proof. unfold after_reveal, deal_checked. by repeat case_match. Qed.

(** A call either leaves a session as it is or commits one of the four
    writes to it. *)
Lemma step_session_cases env c s id :
  let x := sessionAt s id in
  let x' := sessionAt (step env c s) id in
  x' = x ∨
  (timestamp x = 0 ∧ ∃ hb hs pb ps,
     x' = created (msg_sender env) hb hs pb ps (block_timestamp env)) ∨
  (timestamp x ≠ 0 ∧ seller x = 0 ∧ ∃ hs ps, x' = joined (msg_sender env) hs ps x) ∨
  (timestamp x ≠ 0 ∧ msg_sender env = buyer x ∧ buyerRevealed x = false ∧
     ∃ v, x' = after_reveal (sellerRevealed x) (buyer_shown v x)) ∨
  (timestamp x ≠ 0 ∧ msg_sender env = seller x ∧ sellerRevealed x = false ∧
     ∃ v, x' = after_reveal (buyerRevealed x) (seller_shown v x)).
Proof.
  intros x x'. subst x x'.
  destruct (decide (touched env c = Some id)) as [Ht|Ht]; cycle 1.
  { left. apply (step_untouched env c s id Ht). }
  destruct (step_cases env c s) as [[_ ->] | (_ & _ & He)]; [by left|].
  destruct He as [eb es bp sp pb ps hb hs id0 Ht0 _ _ _ _
                 |id0 es sp ps hs x Ht0 Hsel0 _ _
                 |id0 clear proof v x Ht0 Hsnd Hb0 _ _
                 |id0 clear proof v x Ht0 Hsnd Hs0 _ _
                 |c Hc]; simpl in Ht; simplify_eq; rewrite ?put_here.
  - right; left. split; [done|]. by eexists _, _, _, _.
  - right; right; left. do 2 (split; [done|]). by eexists _, _.
  - right; right; right; left. do 3 (split; [done|]). by eexists.
  - right; right; right; right. do 3 (split; [done|]). by eexists.
  - by left.
Qed.

Lemma step_keeps_buyer_side env c s id :
  timestamp (sessionAt s id) ≠ 0 →
  buyer (sessionAt (step env c s) id) = buyer (sessionAt s id) ∧
  encryptedBuyerPrice (sessionAt (step env c s) id) = encryptedBuyerPrice (sessionAt s id) ∧
  timestamp (sessionAt (step env c s) id) = timestamp (sessionAt s id).
Proof.
  intros Ht.
  destruct (step_session_cases env c s id)
    as [-> | [(Ht0 & _) | [(_ & _ & hs & ps & ->) | [(_ & _ & _ & v & ->) | (_ & _ & _ & v & ->)]]]];
    try done.
  - destruct (after_reveal_frame (sellerRevealed (sessionAt s id)) (buyer_shown v (sessionAt s id)))
      as (-> & _ & -> & _). by rewrite after_reveal_timestamp.
  - destruct (after_reveal_frame (buyerRevealed (sessionAt s id)) (seller_shown v (sessionAt s id)))
      as (-> & _ & -> & _). by rewrite after_reveal_timestamp.
Qed.

Lemma step_keeps_revealed env c s id :
  Inv s →
  let x := sessionAt s id in
  let x' := sessionAt (step env c s) id in
  (buyerRevealed x = true → publicBuyerPrice x' = publicBuyerPrice x) ∧
  (sellerRevealed x = true →
     publicSellerPrice x' = publicSellerPrice x ∧ seller x' = seller x ∧
     encryptedSellerPrice x' = encryptedSellerPrice x).
Proof.
  intros HI x x'. subst x x'.
  destruct (inv_session _ HI id) as (Hz & Hsel & _).
  destruct (step_session_cases env c s id)
    as [-> | [(Ht0 & _) | [(_ & Hs0 & hs & ps & ->) | [(_ & _ & Hb0 & v & ->) | (_ & _ & Hs0 & v & ->)]]]].
  - done.
  - rewrite (Hz Ht0). done.
  - split; [done|]. intros Hs. by destruct (Hsel Hs).
  - split; [congruence|]. intros _.
    destruct (after_reveal_fields (sellerRevealed (sessionAt s id)) (buyer_shown v (sessionAt s id)))
      as (_ & _ & _ & -> & _).
    destruct (after_reveal_frame (sellerRevealed (sessionAt s id)) (buyer_shown v (sessionAt s id)))
      as (_ & -> & _ & ->). done.
  - split; [|congruence]. intros _.
    by destruct (after_reveal_fields (buyerRevealed (sessionAt s id)) (seller_shown v (sessionAt s id)))
      as (_ & _ & -> & _).
Qed.

End Frames.

(** X4.  Once a session exists, no sequence of calls by anyone changes its
    buyer, the buyer's ciphertext handle or its creation timestamp; in
    particular an existing session is never deleted or created anew. *)
Theorem existing_session_keeps_buyer_side `{host : FHEHost} cs s id :
  timestamp (sessionAt s id) ≠ 0 →
  buyer (sessionAt (run cs s) id) = buyer (sessionAt s id) ∧
  encryptedBuyerPrice (sessionAt (run cs s) id) = encryptedBuyerPrice (sessionAt s id) ∧
  timestamp (sessionAt (run cs s) id) = timestamp (sessionAt s id).
Proof.
  revert s. induction cs as [|[env c] cs IH]; intros s Ht; simpl; [done|].
  destruct (step_keeps_buyer_side env c s id Ht) as (Hb & He & Hts).
  destruct (IH (step env c s)) as (-> & -> & ->); [by rewrite Hts | done].
Qed.

Lemma existing_session_keeps_buyer_side_witness :
  let s := run (host := demoHost) [demo_create] init in
  let s' := run (host := demoHost)
              [demo_join; demo_create; demo_buyer; demo_seller;
               (bob, RevealBuyerPrice demo_id (abi_word x64) ok_proof)] s in
  timestamp (sessionAt s demo_id) ≠ 0 ∧
  buyer (sessionAt s' demo_id) = 10 ∧
  encryptedBuyerPrice (sessionAt s' demo_id) = 7 ∧
  timestamp (sessionAt s' demo_id) = 1000.
Proof.
  intros s s'.
  assert (timestamp (sessionAt s demo_id) ≠ 0) as Ht by by_running.
  destruct (existing_session_keeps_buyer_side (host := demoHost)
              [demo_join; demo_create; demo_buyer; demo_seller;
               (bob, RevealBuyerPrice demo_id (abi_word x64) ok_proof)] s demo_id Ht)
    as (Hb & He & Hts).
  split; [exact Ht|].
  split; [etrans; [exact Hb|]; by_running|].
  split; [etrans; [exact He|]; by_running|].
  etrans; [exact Hts|]; by_running.
Defined.

(** X5.  In a reachable state a revealed price is final: once
    [buyerRevealed] is true no later call changes [publicBuyerPrice], and
    once [sellerRevealed] is true no later call changes [publicSellerPrice],
    the seller or the seller's ciphertext handle. *)
Theorem revealed_prices_are_final `{host : FHEHost} cs s id :
  Reachable s → Forall (λ ec : Env * Call, valid_env ec.1) cs →
  let x := sessionAt s id in
  let x' := sessionAt (run cs s) id in
  (buyerRevealed x = true →
     buyerRevealed x' = true ∧ publicBuyerPrice x' = publicBuyerPrice x) ∧
  (sellerRevealed x = true →
     sellerRevealed x' = true ∧ publicSellerPrice x' = publicSellerPrice x ∧
     seller x' = seller x ∧ encryptedSellerPrice x' = encryptedSellerPrice x).
Proof.
  intros Hr Hall. apply Reachable_Inv in Hr. revert s Hr.
  induction Hall as [|[env c] cs Hv _ IH]; intros s HI; simpl; [done|].
  simpl in Hv.
  destruct (step_monotone env c s id HI Hv) as (Hmb & Hms & _).
  destruct (step_keeps_revealed env c s id HI) as [Hkb Hks].
  destruct (IH (step env c s) (step_Inv env c s Hv HI)) as [IHb IHs].
  split.
  - intros Hb. destruct (IHb (Hmb Hb)) as [-> ->]. by rewrite (Hkb Hb).
  - intros Hs. destruct (IHs (Hms Hs)) as (-> & -> & -> & ->).
    by destruct (Hks Hs) as (-> & -> & ->).
Qed.

Lemma revealed_prices_are_final_witness :
  let s := run (host := demoHost) [demo_create; demo_join; demo_buyer] init in
  let cs := [(alice, RevealBuyerPrice demo_id (abi_word x32) ok_proof);
             (alice, JoinSession demo_id 5 ok_proof 1); demo_seller] in
  Reachable (host := demoHost) s ∧
  Forall (λ ec : Env * Call, valid_env ec.1) cs ∧
  buyerRevealed (sessionAt s demo_id) = true ∧
  publicBuyerPrice (sessionAt (run (host := demoHost) cs s) demo_id) = 100.
Proof.
  intros s cs.
  assert (Reachable (host := demoHost) s) as Hr.
  { apply run_Reachable; [apply Reachable_init|]. repeat constructor; done. }
  assert (Forall (λ ec : Env * Call, valid_env ec.1) cs) as Hall
    by (repeat constructor; done).
  assert (buyerRevealed (sessionAt s demo_id) = true) as Hb by by_running.
  destruct (revealed_prices_are_final (host := demoHost) cs s demo_id Hr Hall) as [Hfin _].
  split; [exact Hr|]. split; [exact Hall|]. split; [exact Hb|].
  destruct (Hfin Hb) as [_ Hp]. etrans; [exact Hp|]. by_running.
Defined.

(** ** Who can change what *)

(** X6.  A session that exists and has been joined cannot be changed by
    third parties: after any sequence of calls none of which comes from the
    session's buyer or seller, the stored session is what it was. *)
Theorem outsiders_cannot_change_a_joined_session `{host : FHEHost} cs s id :
  let x := sessionAt s id in
  timestamp x ≠ 0 → seller x ≠ 0 →
  Forall (λ ec : Env * Call,
            msg_sender ec.1 ≠ buyer x ∧ msg_sender ec.1 ≠ seller x) cs →
  sessionAt (run cs s) id = x.
Proof.
  intros x Ht Hsel Hall. subst x. revert s Ht Hsel Hall.
  induction cs as [|[env c] cs IH]; intros s Ht Hsel Hall; simpl; [done|].
  inversion Hall as [|? ? [Hnb Hns] Hall']; subst. simpl in Hnb, Hns.
  assert (sessionAt (step env c s) id = sessionAt s id) as Heq.
  { destruct (step_session_cases env c s id)
      as [-> | [(Ht0 & _) | [(_ & Hs0 & _) | [(_ & Hb & _) | (_ & Hs & _)]]]]; done. }
  rewrite <- Heq. apply IH; rewrite Heq; done.
Qed.

Lemma outsiders_cannot_change_a_joined_session_witness :
  let s := run (host := demoHost) [demo_create; demo_join] init in
  let carol := mkEnv 12 1002 in
  let cs := [(carol, RevealBuyerPrice demo_id (abi_word x64) ok_proof);
             (carol, JoinSession demo_id 5 ok_proof 1);
             (carol, RevealSellerPrice demo_id (abi_word x50) ok_proof);
             (carol, CreateSession 3 4 ok_proof ok_proof 1 2)] in
  timestamp (sessionAt s demo_id) ≠ 0 ∧ seller (sessionAt s demo_id) ≠ 0 ∧
  sessionAt (run (host := demoHost) cs s) demo_id = sessionAt s demo_id.
Proof.
  intros s carol cs.
  assert (timestamp (sessionAt s demo_id) ≠ 0) as Ht by by_running.
  assert (seller (sessionAt s demo_id) ≠ 0) as Hsel by by_running.
  split; [exact Ht|]. split; [exact Hsel|].
  apply (outsiders_cannot_change_a_joined_session (host := demoHost) cs s demo_id Ht Hsel).
  repeat constructor; by_running.
Defined.

(** X7.  Each side of an existing session is written only by its own
    party.  A call from anyone but the buyer leaves [publicBuyerPrice] and
    [buyerRevealed] as they are; once a seller is bound, a call from anyone
    but that seller leaves the seller, the seller's handle,
    [publicSellerPrice] and [sellerRevealed] as they are. *)
Theorem each_side_is_written_by_its_party `{host : FHEHost} env c s id :
  let x := sessionAt s id in
  let x' := sessionAt (step env c s) id in
  timestamp x ≠ 0 →
  (msg_sender env ≠ buyer x →
     publicBuyerPrice x' = publicBuyerPrice x ∧ buyerRevealed x' = buyerRevealed x) ∧
  (seller x ≠ 0 → msg_sender env ≠ seller x →
     seller x' = seller x ∧ encryptedSellerPrice x' = encryptedSellerPrice x ∧
     publicSellerPrice x' = publicSellerPrice x ∧ sellerRevealed x' = sellerRevealed x).
Proof.
  intros x x' Ht. subst x x'.
  destruct (step_session_cases env c s id)
    as [-> | [(Ht0 & _) | [(_ & Hs0 & hs & ps & ->) | [(_ & Hb & _ & v & ->) | (_ & Hs & _ & v & ->)]]]];
    try done.
  - split; [done|]. intros Hsel _. by destruct (after_reveal_fields
      (sellerRevealed (sessionAt s id)) (buyer_shown v (sessionAt s id))) as (_ & -> & _ & -> & _),
      (after_reveal_frame
      (sellerRevealed (sessionAt s id)) (buyer_shown v (sessionAt s id))) as (_ & -> & _ & ->).
  - split; [|done]. intros _. by destruct (after_reveal_fields
      (buyerRevealed (sessionAt s id)) (seller_shown v (sessionAt s id))) as (-> & _ & -> & _).
Qed.

Lemma each_side_is_written_by_its_party_witness :
  let s := run (host := demoHost) [demo_create; demo_join; demo_buyer] init in
  let s' := step (host := demoHost) bob demo_seller.2 s in
  timestamp (sessionAt s demo_id) ≠ 0 ∧
  msg_sender bob ≠ buyer (sessionAt s demo_id) ∧
  publicBuyerPrice (sessionAt s' demo_id) = 100 ∧
  sellerRevealed (sessionAt s' demo_id) = true.
Proof.
  intros s s'.
  assert (timestamp (sessionAt s demo_id) ≠ 0) as Ht by by_running.
  assert (msg_sender bob ≠ buyer (sessionAt s demo_id)) as Hnb by by_running.
  destruct (each_side_is_written_by_its_party (host := demoHost) bob demo_seller.2 s demo_id Ht)
    as [Hbuy _].
  split; [exact Ht|]. split; [exact Hnb|]. split.
  - etrans; [exact (proj1 (Hbuy Hnb))|]. by_running.
  - by_running.
Defined.

(** ** Counting the writes and the events of a session *)

Section Counting.
Context `{host : FHEHost}.

Lemma wrote_cases env c s id :
  (wrote id env c s = 0%nat ∧ sessionAt (step env c s) id = sessionAt s id ∧
   events_of id (events (step env c s)) = events_of id (events s)) ∨
  (wrote id env c s = 1%nat ∧ touched env c = Some id ∧ Effect env s c (step env c s)).
Proof.
  unfold wrote.
  destruct (decide (touched env c = Some id)) as [Ht|Ht]; cycle 1.
  { left. rewrite bool_decide_eq_false_2 by done. split; [done|].
    destruct (step_cases env c s) as [[_ ->] | (_ & _ & He)]; [done|].
    split; [by apply (step_untouched env c s id)|].
    destruct He; simpl in Ht; try done;
      assert (id0 ≠ id) as Hne by (intros <-; apply Ht; reflexivity);
      simpl; unfold events_of; rewrite filter_app;
      rewrite ?filter_cons_False, ?filter_nil, ?app_nil_r; try done.
    - unfold deal_event. case_match; rewrite ?filter_cons_False by done;
        by rewrite ?filter_nil, app_nil_r.
    - unfold deal_event. case_match; rewrite ?filter_cons_False by done;
        by rewrite ?filter_nil, app_nil_r. }
  rewrite bool_decide_eq_true_2 by done. simpl.
  destruct (step_cases env c s) as [[-> ->] | (-> & _ & He)]; [by left | by right].
Qed.

Lemma step_progress env c s id :
  Inv s → valid_env env →
  progress (sessionAt (step env c s) id)
  = (progress (sessionAt s id) + wrote id env c s)%nat.
Proof.
  intros HI [Hsender Hnow].
  destruct (wrote_cases env c s id) as [(-> & -> & _) | (-> & Ht & He)]; [lia|].
  destruct (inv_session _ HI id) as (Hz & _).
  apply N.eqb_neq in Hsender, Hnow.
  destruct He as [eb es bp sp pb ps hb hs id0 Ht0 _ _ _ _
                 |id0 es sp ps hs x Ht0 Hsel0 _ _
                 |id0 clear proof v x Ht0 _ Hb0 _ _
                 |id0 clear proof v x Ht0 _ Hs0 _ _
                 |c Hc]; simpl in Ht; simplify_eq; rewrite ?put_here; unfold progress.
  - rewrite (Hz Ht0). simpl. by rewrite Hnow.
  - subst x. simpl. rewrite Hsender, Hsel0. simpl. lia.
  - subst x.
    destruct (after_reveal_fields (sellerRevealed (sessionAt s id)) (buyer_shown v (sessionAt s id)))
      as (-> & -> & _).
    destruct (after_reveal_frame (sellerRevealed (sessionAt s id)) (buyer_shown v (sessionAt s id)))
      as (_ & -> & _).
    rewrite after_reveal_timestamp. simpl. rewrite Hb0. lia.
  - subst x.
    destruct (after_reveal_fields (buyerRevealed (sessionAt s id)) (seller_shown v (sessionAt s id)))
      as (-> & -> & _).
    destruct (after_reveal_frame (buyerRevealed (sessionAt s id)) (seller_shown v (sessionAt s id)))
      as (_ & -> & _).
    rewrite after_reveal_timestamp. simpl. rewrite Hs0. lia.
  - destruct c; simpl in *; done.
Qed.

Lemma run_progress id cs s :
  Inv s → Forall (λ ec : Env * Call, valid_env ec.1) cs →
  progress (sessionAt (run cs s) id) = (progress (sessionAt s id) + writes id cs s)%nat.
Proof.
  intros HI Hall. revert s HI.
  induction Hall as [|[env c] cs Hv _ IH]; intros s HI; simpl; [lia|].
  simpl in Hv. rewrite (IH _ (step_Inv env c s Hv HI)), (step_progress env c s id HI Hv).
  unfold wrote. lia.
Qed.

End Counting.

(** X9.  Along any run from the initial state the number of calls that
    commit a write to a session equals the progress of that session (one
    point each for created, joined, buyer revealed, seller revealed), so a
    session receives at most four committed writes in its whole life. *)
Theorem at_most_four_writes_per_session `{host : FHEHost} cs id :
  Forall (λ ec : Env * Call, valid_env ec.1) cs →
  writes id cs init = progress (sessionAt (run cs init) id) ∧
  (writes id cs init ≤ 4)%nat.
Proof.
  intros Hall.
  pose proof (run_progress id cs init Inv_init Hall) as Hp.
  replace (sessionAt init id) with zeroSession in Hp
    by (unfold sessionAt, init; simpl; by rewrite lookup_empty).
  simpl in Hp. split; [lia|]. rewrite <- Hp. unfold progress.
  repeat case_match; lia.
Qed.

Lemma at_most_four_writes_per_session_witness :
  let cs := [demo_create; demo_create; demo_join; demo_join; demo_buyer;
             demo_seller; demo_buyer; demo_seller] in
  Forall (λ ec : Env * Call, valid_env ec.1) cs ∧
  writes (host := demoHost) demo_id cs init = 4%nat.
Proof.
  intros cs.
  assert (Forall (λ ec : Env * Call, valid_env ec.1) cs) as Hall
    by (repeat constructor; done).
  split; [exact Hall|].
  etrans; [exact (proj1 (at_most_four_writes_per_session (host := demoHost) cs demo_id Hall))|].
  by_running.
Defined.

Section EventCounts.
Context `{host : FHEHost}.

Lemma count_events_app kind id evs1 evs2 :
  count_events kind id (evs1 ++ evs2)
  = (count_events kind id evs1 + count_events kind id evs2)%nat.
Proof. unfold count_events, events_of. by rewrite !filter_app, length_app. Qed.

Lemma count_events_same kind id evs1 evs2 :
  events_of id evs1 = events_of id evs2 →
  count_events kind id evs1 = count_events kind id evs2.
Proof. unfold count_events. by intros ->. Qed.

Lemma count_events_one kind id e :
  event_session e = id →
  count_events kind id [e] = if kind e then 1%nat else 0%nat.
Proof.
  intros He. unfold count_events, events_of.
  rewrite filter_cons_True, filter_nil by done.
  destruct (kind e) eqn:Hk.
  - by rewrite filter_cons_True.
  - rewrite filter_cons_False; [done|]. by rewrite Hk.
Qed.

Lemma count_events_deal kind id other x :
  count_events kind id (deal_event id other x)
  = if other && deal_holds x
    then (if kind (DealMatched id (publicSellerPrice x)) then 1%nat else 0%nat)
    else 0%nat.
Proof.
  unfold deal_event. destruct (other && deal_holds x); [|done].
  by rewrite count_events_one.
Qed.

End EventCounts.

Section EventAccounting.
Context `{host : FHEHost}.

Lemma after_reveal_dealMatched other x :
  dealMatched (after_reveal other x) = dealMatched x || (other && deal_holds x).
Proof.
  unfold after_reveal, deal_checked.
  destruct other, (deal_holds x); simpl; by rewrite ?orb_true_r, ?orb_false_r.
Qed.

Lemma step_event_counts env c s id :
  Inv s → valid_env env →
  let x := sessionAt s id in
  let x' := sessionAt (step env c s) id in
  let evs := events s in
  let evs' := events (step env c s) in
  (count_events is_created id evs'
     + ((if N.eqb (timestamp x) 0%N then 0 else 1) + (if N.eqb (seller x) 0%N then 0 else 1))
   = count_events is_created id evs
     + ((if N.eqb (timestamp x') 0%N then 0 else 1) + (if N.eqb (seller x') 0%N then 0 else 1)))%nat ∧
  (count_events is_revealed id evs'
     + (Nat.b2n (buyerRevealed x) + Nat.b2n (sellerRevealed x))
   = count_events is_revealed id evs
     + (Nat.b2n (buyerRevealed x') + Nat.b2n (sellerRevealed x')))%nat ∧
  (count_events is_matched id evs' + Nat.b2n (dealMatched x)
   = count_events is_matched id evs + Nat.b2n (dealMatched x'))%nat.
Proof.
  intros HI [Hsender Hnow] x x' evs evs'. subst x x' evs evs'.
  destruct (wrote_cases env c s id) as [(_ & -> & Hev) | (_ & Ht & He)].
  { rewrite !(count_events_same _ id _ _ Hev). lia. }
  pose proof (inv_session _ HI id) as Hok. destruct Hok as (Hz & _).
  apply N.eqb_neq in Hsender, Hnow.
  destruct He as [eb es bp sp pb ps hb hs id0 Ht0 _ _ _ _
                 |id0 es sp ps hs x Ht0 Hsel0 _ _
                 |id0 clear proof v x Ht0 _ Hb0 _ _
                 |id0 clear proof v x Ht0 _ Hs0 _ _
                 |c Hc]; simpl in Ht; simplify_eq; rewrite ?put_here; simpl events;
    rewrite ?count_events_app.
  - rewrite !count_events_one by done. rewrite (Hz Ht0). simpl. rewrite Hnow. lia.
  - rewrite !count_events_one by done. subst x. simpl. rewrite Hsender, Hsel0. simpl. lia.
  - assert (dealMatched x = false) as Hdm.
    { apply session_ok_unmatched; [apply (inv_session _ HI)|]. fold x. by rewrite Hb0. }
    change (PriceRevealed id (msg_sender env) v :: deal_event id (sellerRevealed x) (buyer_shown v x))
      with ([PriceRevealed id (msg_sender env) v] ++ deal_event id (sellerRevealed x) (buyer_shown v x)).
    rewrite !count_events_app, !count_events_one, !count_events_deal by done.
    rewrite after_reveal_dealMatched, after_reveal_timestamp.
    destruct (after_reveal_fields (sellerRevealed x) (buyer_shown v x)) as (-> & -> & _).
    destruct (after_reveal_frame (sellerRevealed x) (buyer_shown v x)) as (_ & -> & _).
    fold x. simpl. rewrite Hb0, Hdm. simpl.
    destruct (sellerRevealed x), (deal_holds (buyer_shown v x)); simpl; repeat case_match; lia.
  - assert (dealMatched x = false) as Hdm.
    { apply session_ok_unmatched; [apply (inv_session _ HI)|]. fold x. rewrite Hs0.
      apply andb_false_r. }
    change (PriceRevealed id (msg_sender env) v :: deal_event id (buyerRevealed x) (seller_shown v x))
      with ([PriceRevealed id (msg_sender env) v] ++ deal_event id (buyerRevealed x) (seller_shown v x)).
    rewrite !count_events_app, !count_events_one, !count_events_deal by done.
    rewrite after_reveal_dealMatched, after_reveal_timestamp.
    destruct (after_reveal_fields (buyerRevealed x) (seller_shown v x)) as (-> & -> & _).
    destruct (after_reveal_frame (buyerRevealed x) (seller_shown v x)) as (_ & -> & _).
    fold x. simpl. rewrite Hs0, Hdm. simpl.
    destruct (buyerRevealed x), (deal_holds (seller_shown v x)); simpl; repeat case_match; lia.
  - destruct c; simpl in *; done.
Qed.

End EventAccounting.

(** X10.  In a reachable state the event log accounts for every session
    exactly: it holds one [SessionCreated] event for the creation and one
    more once a seller is bound, one [PriceRevealed] event for each reveal
    flag that is set, and one [DealMatched] event if [dealMatched] is true
    and none otherwise. *)
Theorem events_account_for_the_session `{host : FHEHost} s id :
  Reachable s →
  let x := sessionAt s id in
  count_events is_created id (events s)
    = ((if N.eqb (timestamp x) 0%N then 0 else 1) + (if N.eqb (seller x) 0%N then 0 else 1))%nat ∧
  count_events is_revealed id (events s)
    = (Nat.b2n (buyerRevealed x) + Nat.b2n (sellerRevealed x))%nat ∧
  count_events is_matched id (events s) = Nat.b2n (dealMatched x).
Proof.
  induction 1 as [|s env c Hr IH Hv]; intros x.
  - subst x. replace (sessionAt init id) with zeroSession
      by (unfold sessionAt, init; simpl; by rewrite lookup_empty). done.
  - subst x. cbv zeta in IH. destruct IH as (IH1 & IH2 & IH3).
    destruct (step_event_counts env c s id (Reachable_Inv _ Hr) Hv) as (H1 & H2 & H3).
    split; [|split]; lia.
Qed.

Lemma events_account_for_the_session_witness :
  let s := run (host := demoHost) [demo_create; demo_join; demo_buyer; demo_seller] init in
  Reachable (host := demoHost) s ∧
  count_events is_created demo_id (events s) = 2%nat ∧
  count_events is_revealed demo_id (events s) = 2%nat ∧
  count_events is_matched demo_id (events s) = 1%nat.
Proof.
  intros s.
  assert (Reachable (host := demoHost) s) as Hr.
  { apply run_Reachable; [apply Reachable_init|]. repeat constructor; done. }
  destruct (events_account_for_the_session (host := demoHost) s demo_id Hr) as (H1 & H2 & H3).
  split; [exact Hr|].
  split; [etrans; [exact H1|]; by_running|].
  split; [etrans; [exact H2|]; by_running|].
  etrans; [exact H3|]; by_running.
Defined.

(** ** The handles of stored sessions *)

(** X12.  In a reachable state both ciphertext handles of every existing
    session pass [FHE.isInitialized], and the contract has called
    [FHE.allowThis] on each of them. *)
Theorem stored_handles_are_valid_and_allowed `{host : FHEHost} s id :
  Reachable s →
  let x := sessionAt s id in
  timestamp x ≠ 0 →
  isInitialized (encryptedBuyerPrice x) = true ∧
  isInitialized (encryptedSellerPrice x) = true ∧
  encryptedBuyerPrice x ∈ allowed s ∧
  encryptedSellerPrice x ∈ allowed s.
Proof.
  induction 1 as [|s env c Hr IH Hv]; intros x Ht; subst x.
  - exfalso. apply Ht. unfold sessionAt, init; simpl. by rewrite lookup_empty.
  - cbv zeta in IH.
    destruct (wrote_cases env c s id) as [(_ & Heq & _) | (_ & Htouch & He)].
    { rewrite Heq in Ht |- *. destruct (IH Ht) as (Hb & Hs & Hab & Has).
      destruct (step_grows env c s) as (_ & _ & hs & _ & _ & ->).
      do 2 (split; [done|]). split; apply elem_of_union_r; done. }
    destruct He as [eb es bp sp pb ps hb hs id0 Ht0 _ _ Hib His
                   |id0 es sp ps hs x Ht0 Hsel0 _ His
                   |id0 clear proof v x Ht0 _ _ _ _
                   |id0 clear proof v x Ht0 _ _ _ _
                   |c Hc]; simpl in Htouch; simplify_eq; rewrite ?put_here in *; simpl.
    + do 2 (split; [done|]). split; apply elem_of_union_l.
      * apply elem_of_union_r, elem_of_singleton. done.
      * apply elem_of_union_l, elem_of_singleton. done.
    + destruct (IH Ht0) as (Hb & _ & Hab & _). fold x in Hb, Hab.
      split; [done|]. split; [done|]. split.
      * by apply elem_of_union_r.
      * apply elem_of_union_l, elem_of_singleton. done.
    + destruct (IH Ht0) as (Hb & Hs & Hab & Has). fold x in Hb, Hs, Hab, Has.
      destruct (after_reveal_frame (sellerRevealed x) (buyer_shown v x)) as (_ & _ & -> & ->).
      simpl. do 2 (split; [done|]). split; by apply elem_of_union_r.
    + destruct (IH Ht0) as (Hb & Hs & Hab & Has). fold x in Hb, Hs, Hab, Has.
      destruct (after_reveal_frame (buyerRevealed x) (seller_shown v x)) as (_ & _ & -> & ->).
      simpl. do 2 (split; [done|]). split; by apply elem_of_union_r.
    + destruct c; simpl in *; done.
Qed.

Lemma stored_handles_are_valid_and_allowed_witness :
  let s := run (host := demoHost) [demo_create; demo_join] init in
  Reachable (host := demoHost) s ∧
  timestamp (sessionAt s demo_id) ≠ 0 ∧
  encryptedSellerPrice (sessionAt s demo_id) = 9 ∧
  isInitialized (FHEHost := demoHost) 9 = true ∧
  9 ∈ allowed s.
Proof.
  intros s.
  assert (Reachable (host := demoHost) s) as Hr.
  { apply run_Reachable; [apply Reachable_init|]. repeat constructor; done. }
  assert (timestamp (sessionAt s demo_id) ≠ 0) as Ht by by_running.
  assert (encryptedSellerPrice (sessionAt s demo_id) = 9) as He by by_running.
  destruct (stored_handles_are_valid_and_allowed (host := demoHost) s demo_id Hr Ht)
    as (_ & Hs & _ & Has).
  split; [exact Hr|]. split; [exact Ht|]. split; [exact He|].
  rewrite He in Hs, Has. split; [exact Hs | exact Has].
Defined.

(** ** The clear value of a reveal *)

Lemma be_to_N_acc bs acc :
  fold_left (fun a b => a * 256 + Byte.to_N b) bs acc
  < (acc + 1) * 256 ^ N.of_nat (length bs).
Proof.
  revert acc. induction bs as [|b bs IH]; intros acc; simpl length.
  - simpl. lia.
  - simpl fold_left. eapply N.lt_le_trans; [apply IH|].
    pose proof (Byte.to_N_bounded b) as Hb.
    rewrite Nat2N.inj_succ, N.pow_succ_r'. nia.
Qed.

Lemma be_to_N_bound bs : be_to_N bs < 256 ^ N.of_nat (length bs).
Proof. pose proof (be_to_N_acc bs 0) as H. unfold be_to_N. lia. Qed.

(** X13.  A reveal commits only when the clear value has at least 32 bytes;
    the price it stores is the big-endian value of the first 32 of them,
    whatever follows, and is below 2^256.  With fewer than 32 bytes the call
    reverts even if the decryption proof verifies. *)
Theorem reveal_stores_the_first_word `{host : FHEHost} env id clear proof s s' :
  (revealBuyerPrice env id clear proof s = Ok tt s' →
     (32 ≤ length clear)%nat ∧
     publicBuyerPrice (sessionAt s' id) = be_to_N (take 32 clear) ∧
     publicBuyerPrice (sessionAt s' id) < 2 ^ 256) ∧
  (revealSellerPrice env id clear proof s = Ok tt s' →
     (32 ≤ length clear)%nat ∧
     publicSellerPrice (sessionAt s' id) = be_to_N (take 32 clear) ∧
     publicSellerPrice (sessionAt s' id) < 2 ^ 256).
Proof.
  assert (∀ v, abi_decode_uint256 clear = Some v →
            (32 ≤ length clear)%nat ∧ v = be_to_N (take 32 clear) ∧ v < 2 ^ 256) as Hdec.
  { unfold abi_decode_uint256. intros v.
    destruct (length clear <? 32)%nat eqn:Hlen; [done|]. intros [= <-].
    apply Nat.ltb_ge in Hlen. split; [done|]. split; [done|].
    eapply N.lt_le_trans; [apply be_to_N_bound|].
    rewrite length_take, Nat.min_l by done. done. }
  split.
  - rewrite revealBuyerPrice_eq. cbv zeta. repeat case_match; try done.
    intros [= <-]. rewrite put_here.
    destruct (after_reveal_fields (sellerRevealed (sessionAt s id))
                (buyer_shown n (sessionAt s id))) as (_ & _ & -> & _).
    simpl. destruct (Hdec n) as (? & <- & ?); done.
  - rewrite revealSellerPrice_eq. cbv zeta. repeat case_match; try done.
    intros [= <-]. rewrite put_here.
    destruct (after_reveal_fields (buyerRevealed (sessionAt s id))
                (seller_shown n (sessionAt s id))) as (_ & _ & _ & -> & _).
    simpl. destruct (Hdec n) as (? & <- & ?); done.
Qed.

Lemma reveal_stores_the_first_word_witness :
  let s := run (host := demoHost) [demo_create; demo_join] init in
  let clear := abi_word x64 ++ [x07; x07] in
  let s' := step (host := demoHost) alice (RevealBuyerPrice demo_id clear ok_proof) s in
  revealBuyerPrice (host := demoHost) alice demo_id clear ok_proof s = Ok tt s' ∧
  publicBuyerPrice (sessionAt s' demo_id) = 100.
Proof.
  intros s clear s'.
  assert (revealBuyerPrice (host := demoHost) alice demo_id clear ok_proof s = Ok tt s')
    as Hx by by_running.
  split; [exact Hx|].
  destruct (reveal_stores_the_first_word (host := demoHost)
              alice demo_id clear ok_proof s s') as [Hb _].
  destruct (Hb Hx) as (_ & Hp & _). etrans; [exact Hp|]. by_running.
Defined.

(** ** Whole protocols *)

Section Protocol.
Context `{host : FHEHost}.


Lemma join_ok env id es sp ps hs s :
  let x := sessionAt s id in
  timestamp x ≠ 0 → seller x = 0 →
  fromExternal (msg_sender env) es sp = Some hs → isInitialized hs = true →
  exec env (JoinSession id es sp ps) s =
  Ok tt (put id (joined (msg_sender env) hs ps x) []
           [SessionCreated id (buyer x) (msg_sender env)] {[hs]} s).
Proof.
  intros x Ht Hsel Hs His. simpl. rewrite joinSession_eq. cbv zeta. fold x.
  apply N.neq_0_lt_0, N.ltb_lt in Ht. by rewrite Ht, Hsel, Hs, His.
Qed.

End Protocol.

(** X14.  On a session nobody has joined and nobody has revealed, the
    seller's [joinSession] and the buyer's [revealBuyerPrice] commit in
    either order and lead to the same stored sessions: the buyer may reveal
    before the seller has joined. *)
Theorem join_and_buyer_reveal_commute `{host : FHEHost}
    envJ envB id es sp ps hs clear proof v s :
  let x := sessionAt s id in
  let j := JoinSession id es sp ps in
  let r := RevealBuyerPrice id clear proof in
  timestamp x ≠ 0 → seller x = 0 →
  buyerRevealed x = false → sellerRevealed x = false →
  msg_sender envB = buyer x →
  fromExternal (msg_sender envJ) es sp = Some hs → isInitialized hs = true →
  checkSignatures [toBytes32 (encryptedBuyerPrice x)] clear proof = true →
  abi_decode_uint256 clear = Some v →
  let s1 := run [(envJ, j); (envB, r)] s in
  let s2 := run [(envB, r); (envJ, j)] s in
  succeeds envJ j s = true ∧ succeeds envB r (step envJ j s) = true ∧
  succeeds envB r s = true ∧ succeeds envJ j (step envB r s) = true ∧
  sessions s1 = sessions s2 ∧ sessionIds s1 = sessionIds s2 ∧ allowed s1 = allowed s2 ∧
  sessionAt s1 id =
    mkSession (buyer x) (msg_sender envJ) (encryptedBuyerPrice x) hs v ps
      true false (dealMatched x) (timestamp x).
Proof.
  intros x j r Ht Hsel Hb Hs HsB Hf Hi Hc Hv s1 s2.
  (* join first *)
  pose proof (join_ok envJ id es sp ps hs s Ht Hsel Hf Hi) as Hj1. fold x in Hj1.
  destruct (step_ok envJ j s _ Hj1) as [Hstep_j1 Hok_j1].
  pose proof (reveal_buyer_ok envB id clear proof v (step envJ j s)) as Hr1.
  cbv zeta in Hr1. rewrite Hstep_j1, put_here in Hr1.
  specialize (Hr1 Ht HsB Hb Hc Hv). simpl in Hr1. rewrite Hs in Hr1. simpl in Hr1.
  destruct (step_ok envB r _ _ Hr1) as [Hstep_r1 Hok_r1].
  (* reveal first *)
  pose proof (reveal_buyer_ok envB id clear proof v s Ht HsB Hb Hc Hv) as Hr2.
  fold x in Hr2. rewrite Hs in Hr2. simpl in Hr2.
  destruct (step_ok envB r s _ Hr2) as [Hstep_r2 Hok_r2].
  pose proof (join_ok envJ id es sp ps hs (step envB r s)) as Hj2.
  cbv zeta in Hj2. rewrite Hstep_r2, put_here in Hj2.
  specialize (Hj2 Ht Hsel Hf Hi). simpl in Hj2.
  destruct (step_ok envJ j _ _ Hj2) as [Hstep_j2 Hok_j2].
  subst s1 s2. simpl.
  rewrite Hstep_j1, Hstep_r1, Hstep_r2, Hstep_j2.
  do 4 (split; [done|]).
  rewrite !put_here. unfold put, joined, buyer_shown. simpl.
  rewrite !insert_insert_eq.
  unfold set_buyerRevealed, set_publicBuyerPrice, set_publicSellerPrice,
    set_encryptedSellerPrice, set_seller. simpl. rewrite Hs.
  do 2 (split; [done|]). split; [|done].
  rewrite !(left_id_L ∅ (∪)). done.
Qed.

Lemma join_and_buyer_reveal_commute_witness :
  let s := run (host := demoHost) [demo_create] init in
  let s1 := run (host := demoHost) [demo_join; demo_buyer] s in
  let s2 := run (host := demoHost) [demo_buyer; demo_join] s in
  timestamp (sessionAt s demo_id) ≠ 0 ∧ seller (sessionAt s demo_id) = 0 ∧
  sessions s1 = sessions s2 ∧
  seller (sessionAt s1 demo_id) = 11 ∧ publicBuyerPrice (sessionAt s1 demo_id) = 100.
Proof.
  intros s s1 s2.
  assert (timestamp (sessionAt s demo_id) ≠ 0) as Ht by by_running.
  assert (seller (sessionAt s demo_id) = 0) as Hsel by by_running.
  destruct (join_and_buyer_reveal_commute (host := demoHost)
              bob alice demo_id 9 ok_proof 85 9 (abi_word x64) ok_proof 100 s
              Ht Hsel ltac:(by_running) ltac:(by_running) ltac:(by_running)
              ltac:(by_running) ltac:(by_running) ltac:(by_running) ltac:(by_running))
    as (_ & _ & _ & _ & Heq & _ & _ & Hx).
  split; [exact Ht|]. split; [exact Hsel|]. split; [exact Heq|].
  split.
  - etrans; [exact (f_equal seller Hx)|]. reflexivity.
  - etrans; [exact (f_equal publicBuyerPrice Hx)|]. reflexivity.
Defined.



(** ** Calls on different sessions *)

Section Independence.
Context `{host : FHEHost}.

(** Whether a call commits, and what it writes, depends on the state only
    through the session it touches. *)
Lemma step_local env c s1 s2 id :
  touched env c = Some id → sessionAt s1 id = sessionAt s2 id →
  (succeeds env c s1 = false ∧ succeeds env c s2 = false ∧
   step env c s1 = s1 ∧ step env c s2 = s2) ∨
  (succeeds env c s1 = true ∧ succeeds env c s2 = true ∧
   ∃ x ids evs hs,
     step env c s1 = put id x ids evs hs s1 ∧ step env c s2 = put id x ids evs hs s2).
Proof.
  intros Ht Heq. unfold succeeds, step, transact.
  destruct c as [eb es bp sp pb ps|id0 es sp ps|id0 clear proof|id0 clear proof| | | |];
    simpl in Ht; try done; injection Ht as Ht; subst id; unfold exec.
  - unfold mbind, M_bind, bind. rewrite !createSession_eq. cbv zeta. rewrite Heq.
    destruct (timestamp _ =? 0); [|by left].
    destruct (fromExternal _ eb bp) as [hb|]; [|by left].
    destruct (fromExternal _ es sp) as [hs|]; [|by left].
    destruct (isInitialized hb); [|by left].
    destruct (isInitialized hs); [|by left].
    right. do 2 (split; [done|]). by eexists _, _, _, _.
  - rewrite !joinSession_eq. cbv zeta. rewrite Heq.
    destruct (0 <? _); [|by left].
    destruct (seller _ =? 0); [|by left].
    destruct (fromExternal _ es sp) as [hs|]; [|by left].
    destruct (isInitialized hs); [|by left].
    right. do 2 (split; [done|]). by eexists _, _, _, _.
  - rewrite !revealBuyerPrice_eq. cbv zeta. rewrite Heq.
    destruct (0 <? _); [|by left].
    destruct (_ =? buyer _); [|by left].
    destruct (buyerRevealed _); [by left|].
    destruct (checkSignatures _ _ _); [|by left].
    destruct (abi_decode_uint256 clear) as [v|]; [|by left].
    right. do 2 (split; [done|]). by eexists _, _, _, _.
  - rewrite !revealSellerPrice_eq. cbv zeta. rewrite Heq.
    destruct (0 <? _); [|by left].
    destruct (_ =? seller _); [|by left].
    destruct (sellerRevealed _); [by left|].
    destruct (checkSignatures _ _ _); [|by left].
    destruct (abi_decode_uint256 clear) as [v|]; [|by left].
    right. do 2 (split; [done|]). by eexists _, _, _, _.
Qed.

End Independence.

(** X8.  Two calls that write different sessions are independent: whether
    each commits does not depend on whether the other ran first, and the two
    orders end with the same stored sessions and the same allowed handles;
    the event log and the id list hold the same entries, in the order of
    the calls. *)
Theorem calls_on_different_sessions_commute `{host : FHEHost}
    env1 c1 env2 c2 id1 id2 s :
  touched env1 c1 = Some id1 → touched env2 c2 = Some id2 → id1 ≠ id2 →
  let sA := run [(env1, c1); (env2, c2)] s in
  let sB := run [(env2, c2); (env1, c1)] s in
  succeeds env2 c2 (step env1 c1 s) = succeeds env2 c2 s ∧
  succeeds env1 c1 (step env2 c2 s) = succeeds env1 c1 s ∧
  sessions sA = sessions sB ∧ allowed sA = allowed sB ∧
  events sA ≡ₚ events sB ∧ sessionIds sA ≡ₚ sessionIds sB.
Proof.
  intros Ht1 Ht2 Hne sA sB. subst sA sB. simpl.
  assert (touched env2 c2 ≠ Some id1) as Hn21 by congruence.
  assert (touched env1 c1 ≠ Some id2) as Hn12 by congruence.
  destruct (step_untouched env2 c2 s id1 Hn21) as [Hu1 _].
  destruct (step_untouched env1 c1 s id2 Hn12) as [Hu2 _].
  destruct (step_local env1 c1 s (step env2 c2 s) id1 Ht1 (eq_sym Hu1))
    as [(-> & -> & Hs1 & Hs1') | (-> & -> & x1 & ids1 & evs1 & hs1 & Hs1 & Hs1')];
  destruct (step_local env2 c2 s (step env1 c1 s) id2 Ht2 (eq_sym Hu2))
    as [(-> & -> & Hs2 & Hs2') | (-> & -> & x2 & ids2 & evs2 & hs2 & Hs2 & Hs2')];
    do 2 (split; [done|]); rewrite Hs2', Hs1'.
  - by rewrite Hs1, Hs2.
  - by rewrite Hs1, Hs2.
  - by rewrite Hs1, Hs2.
  - rewrite Hs1, Hs2. unfold put; simpl. split; [|split; [|split]].
    + by apply insert_insert_ne.
    + rewrite !(assoc_L (∪)). f_equal. apply (comm_L (∪)).
    + rewrite <- !app_assoc. apply Permutation_app_head, Permutation_app_comm.
    + rewrite <- !app_assoc. apply Permutation_app_head, Permutation_app_comm.
Qed.

Lemma calls_on_different_sessions_commute_witness :
  let s := run (host := demoHost)
             [demo_create; (bob, CreateSession 3 4 ok_proof ok_proof 1 2)] init in
  let other := (alice, JoinSession 47244641257 6 ok_proof 2) in
  touched (host := demoHost) bob demo_join.2 = Some demo_id ∧
  touched (host := demoHost) alice other.2 = Some 47244641257 ∧
  demo_id ≠ 47244641257 ∧
  sessions (run (host := demoHost) [demo_join; other] s)
  = sessions (run (host := demoHost) [other; demo_join] s) ∧
  seller (sessionAt (run (host := demoHost) [other; demo_join] s) demo_id) = 11.
Proof.
  intros s other.
  assert (touched (host := demoHost) bob demo_join.2 = Some demo_id) as Ht1 by reflexivity.
  assert (touched (host := demoHost) alice other.2 = Some 47244641257) as Ht2 by reflexivity.
  assert (demo_id ≠ 47244641257) as Hne by by_running.
  destruct (calls_on_different_sessions_commute (host := demoHost)
              bob demo_join.2 alice other.2 demo_id 47244641257 s Ht1 Ht2 Hne)
    as (_ & _ & Heq & _).
  split; [exact Ht1|]. split; [exact Ht2|]. split; [exact Hne|].
  split; [exact Heq | by_running].
Defined.
